(** * serving_utils.client: a shallow embedding of the round-robin gRPC client

    The client (src/serving_utils/client.py) keeps a pool of connections,
    one per address the host name resolves to, reconciles the pool against
    the resolver at the start of each prediction, and retries a prediction
    over the pool up to [n_trys] times.

    External collaborators are modelled as an environment [Env]: the name
    resolver ([socket.gethostbyname_ex]), the blocking and concurrent
    [Predict] RPCs and the [ListModels] RPC.  Each of them is indexed by the
    number of calls made so far, so a scenario fixes what the k-th call
    answers.  Python exceptions are the constructors of [Exn]. *)

From Stdlib Require Import List String Ascii Bool Arith ZArith Lia Permutation.
Import ListNotations.
#[local] Set Warnings "-register-all".

Open Scope string_scope.

(* ------------------------------------------------------------------ *)
(** ** Exceptions and status codes *)

(** The status codes shared by [grpc.StatusCode] and [grpclib.const.Status]. *)
Inductive StatusCode :=
  | OK | CANCELLED | UNKNOWN | INVALID_ARGUMENT | DEADLINE_EXCEEDED
  | NOT_FOUND | ALREADY_EXISTS | PERMISSION_DENIED | RESOURCE_EXHAUSTED
  | FAILED_PRECONDITION | ABORTED | OUT_OF_RANGE | UNIMPLEMENTED
  | INTERNAL | UNAVAILABLE | DATA_LOSS | UNAUTHENTICATED.

Scheme Equality for StatusCode.

(** Python exceptions that reach the client code. *)
Inductive Exn :=
  | EmptyPool                                   (* serving_utils.client.EmptyPool *)
  | RetryFailed (errors : list Exn)             (* serving_utils.client.RetryFailed *)
  | RpcError (code : StatusCode) (details : string)
      (* grpc.RpcError: e.code(), e.details() *)
  | GRPCError (status : StatusCode) (message : option string)
      (* grpclib.exceptions.GRPCError: e.status, e.message (None when the
         server sent no grpc-message) *)
  | CancelledError                              (* asyncio.CancelledError *)
  | TypeError (msg : string)
  | KeyError (key : string)
  | Gaierror (host : string)                    (* socket.gaierror *)
  | OtherException (name : string)              (* any other Exception *)
  | OtherBaseException (name : string).         (* KeyboardInterrupt, ... *)

(** [isinstance(e, Exception)]: asyncio.CancelledError is a BaseException
    (Python >= 3.8), like KeyboardInterrupt and SystemExit. *)
Definition is_Exception (e : Exn) : bool :=
  match e with
  | CancelledError | OtherBaseException _ => false
  | _ => true
  end.

(** Python's [sub in s] on strings. *)
Fixpoint py_in (sub s : string) : bool :=
  prefix sub s ||
  match s with
  | EmptyString => false
  | String _ s' => py_in sub s'
  end.

(* ------------------------------------------------------------------ *)
(** ** Connections *)

(** A transport handle: [grpc.insecure_channel]/[grpc.secure_channel] for
    the blocking surface, [grpclib.client.Channel] for the concurrent one. *)
Inductive Channel :=
  | SyncChannel (addr : string) (port : Z) (secure : bool)
  | AsyncChannel (addr : string) (port : Z).

(** [prediction_service_pb2_grpc.PredictionServiceStub(channel)] and
    [prediction_service_grpc.PredictionServiceStub(channel)]. *)
Inductive Stub :=
  | PredictionServiceStub (channel : Channel).

Record Connection := {
  conn_addr : string;
  conn_port : Z;
  sync_channel : Channel;
  async_channel : Channel;
  sync_stub : Stub;
  async_stub : Stub
}.

(** [Connection.__init__] without its effects: the record it builds.
    [channel_options] and [loop] are passed through to the transport and
    do not change the handles' identity. *)
Definition mk_connection (addr : string) (port : Z) (pem : option string) : Connection :=
  let sc := SyncChannel addr port (match pem with None => false | Some _ => true end) in
  let ac := AsyncChannel addr port in
  {| conn_addr := addr; conn_port := port;
     sync_channel := sc; async_channel := ac;
     sync_stub := PredictionServiceStub sc;
     async_stub := PredictionServiceStub ac |}.

(* ------------------------------------------------------------------ *)
(** ** RoundRobinMap *)

Module RR.

(** Modelled from the spec: [serving_utils.round_robin_map.RoundRobinMap]
    (imported by client.py, absent from the sources).  Spec 4.1 and 9: an
    ordered sequence of (address, connection) pairs and a cursor stored as
    an index read modulo the current length; [__next__] returns the entry
    under the cursor and advances past it, and raises StopIteration (here
    [None]) on an empty map; [__setitem__] inserts at the end and fails when
    the key is present; [__delitem__] removes the entry (no-op when absent)
    and decrements the cursor when the removed entry lies before it. *)
Record RoundRobinMap := {
  entries : list (string * Connection);
  idx : nat
}.

Definition empty : RoundRobinMap := {| entries := []; idx := 0 |}.

(** [self._pool.keys()] *)
Definition keys (p : RoundRobinMap) : list string := map fst (entries p).

Definition contains (a : string) (p : RoundRobinMap) : bool :=
  existsb (fun k => String.eqb k a) (keys p).

(** [next(iter(pool))] *)
Definition next (p : RoundRobinMap) : option ((string * Connection) * RoundRobinMap) :=
  let n := List.length (entries p) in
  let i := idx p mod n in
  match nth_error (entries p) i with
  | None => None
  | Some e => Some (e, {| entries := entries p; idx := S i mod n |})
  end.

Fixpoint find_index (a : string) (l : list (string * Connection)) : option nat :=
  match l with
  | [] => None
  | (k, _) :: l' =>
      if String.eqb k a then Some 0
      else match find_index a l' with Some j => Some (S j) | None => None end
  end.

Fixpoint remove_nth {A} (j : nat) (l : list A) : list A :=
  match j, l with
  | _, [] => []
  | O, _ :: l' => l'
  | S j', x :: l' => x :: remove_nth j' l'
  end.

(** [del pool[a]] *)
Definition delitem (a : string) (p : RoundRobinMap) : RoundRobinMap :=
  match find_index a (entries p) with
  | None => p
  | Some j =>
      {| entries := remove_nth j (entries p);
         idx := if Nat.ltb j (idx p) then idx p - 1 else idx p |}
  end.

(** [pool[a] = c]; [None] is the precondition failure on a present key. *)
Definition setitem (a : string) (c : Connection) (p : RoundRobinMap) : option RoundRobinMap :=
  if contains a p then None
  else Some {| entries := entries p ++ [(a, c)]; idx := idx p |}.

(** The pool invariant: keys are unique. *)
Definition wf (p : RoundRobinMap) : Prop := NoDup (keys p).

(** The entries left by [delitem], in one pass (used in proofs). *)
Fixpoint del_entries (a : string) (l : list (string * Connection)) : list (string * Connection) :=
  match l with
  | [] => []
  | (k, c) :: l' => if String.eqb k a then l' else (k, c) :: del_entries a l'
  end.

End RR.

(* ------------------------------------------------------------------ *)
(** ** Requests, responses and the environment *)

(** [predict_pb2.PredictRequest] as [_predict_request] fills it; tensor
    encoding ([tf.make_tensor_proto]) is external, so a value is kept as
    the list of its elements. *)
Record PredictRequest := {
  model_spec_name : string;
  model_spec_signature_name : option string;
  inputs : list (string * list Z);
  output_filter : list string
}.

Record PredictResponse := { outputs : list (string * list Z) }.

(** [Client._predict_request] *)
Definition _predict_request (data : list (string * list Z)) (model_name : string)
    (output_names : option (list string)) (model_signature_name : option string)
    : PredictRequest :=
  {| model_spec_name := model_name;
     model_spec_signature_name := model_signature_name;
     inputs := data;
     output_filter := match output_names with None => [] | Some ns => ns end |}.

(** [Client.parse_predict_response]; [tf.make_ndarray] is external. *)
Definition parse_predict_response (response : PredictResponse) : list (string * list Z) :=
  outputs response.

(** Outcome of a Python call: a value or a raised exception. *)
Inductive Result (A : Type) :=
  | Ok (a : A)
  | Exc (e : Exn).
Arguments Ok {A} a.
Arguments Exc {A} e.

(** The external world: the k-th resolver call for a host, and the answer
    of the k-th RPC (counted over all RPCs) issued through a stub or a
    channel. *)
Record Env := {
  env_gethostbyname_ex : nat -> string -> Result (list string);
  env_predict : nat -> Stub -> PredictRequest -> Result PredictResponse;
  env_list_models : nat -> Channel -> Result (list string)
}.

(** The client's configuration, fixed by [Client.__init__]. *)
Record Client := {
  host : string;
  port : Z;
  n_trys : Z;
  pem : option string
}.

(** [n_trys] defaults to 3 in [Client.__init__]. *)
Definition default_n_trys : Z := 3.

(** Events observable outside the client: resolver and RPC calls and the
    logger's records. *)
Inductive Event :=
  | EvResolve (host : string)
  | EvPredict (stub : Stub)
  | EvListModels (channel : Channel)
  | EvWarning (msg : string)
  | EvException (e : Exn).

(** The mutable state: [self._pool], the transport handles opened and not
    closed, the call counters indexing [Env], and the trace. *)
Record State := {
  _pool : RR.RoundRobinMap;
  open_channels : list Channel;
  resolve_calls : nat;
  rpc_calls : nat;
  trace : list Event
}.

Definition set_pool (p : RR.RoundRobinMap) (s : State) : State :=
  {| _pool := p; open_channels := open_channels s; resolve_calls := resolve_calls s;
     rpc_calls := rpc_calls s; trace := trace s |}.

Definition set_open (l : list Channel) (s : State) : State :=
  {| _pool := _pool s; open_channels := l; resolve_calls := resolve_calls s;
     rpc_calls := rpc_calls s; trace := trace s |}.

Definition emit (ev : Event) (s : State) : State :=
  {| _pool := _pool s; open_channels := open_channels s; resolve_calls := resolve_calls s;
     rpc_calls := rpc_calls s; trace := trace s ++ [ev] |}.

Definition tick_resolve (s : State) : State :=
  {| _pool := _pool s; open_channels := open_channels s; resolve_calls := S (resolve_calls s);
     rpc_calls := rpc_calls s; trace := trace s |}.

Definition tick_rpc (s : State) : State :=
  {| _pool := _pool s; open_channels := open_channels s; resolve_calls := resolve_calls s;
     rpc_calls := S (rpc_calls s); trace := trace s |}.

(* ------------------------------------------------------------------ *)
(** ** A state and exception monad *)

Definition M (A : Type) := State -> Result A * State.

Definition ret {A} (a : A) : M A := fun s => (Ok a, s).
Definition raise {A} (e : Exn) : M A := fun s => (Exc e, s).
Definition bind {A B} (m : M A) (f : A -> M B) : M B :=
  fun s => match m s with
           | (Ok a, s') => f a s'
           | (Exc e, s') => (Exc e, s')
           end.
Definition modify (f : State -> State) : M unit := fun s => (Ok tt, f s).

(** [try: m] reified: the exception, if any, becomes a value. *)
Definition try_ {A} (m : M A) : M (Result A) :=
  fun s => let (r, s') := m s in (Ok r, s').

Notation "x <- m ;; k" := (bind m (fun x => k))
  (at level 61, m at next level, right associativity).
Notation "m ;; k" := (bind m (fun _ => k)) (at level 61, right associativity).

(** [for x in xs: f(x)] *)
Fixpoint for_ {A} (xs : list A) (f : A -> M unit) : M unit :=
  match xs with
  | [] => ret tt
  | x :: xs' => f x ;; for_ xs' f
  end.

(* ------------------------------------------------------------------ *)
(** ** Python sets of addresses *)

(** [set(l)]: a duplicate-free list.  CPython iterates a set in hash order;
    the model iterates in list order, and no statement below depends on it. *)
Definition py_set (l : list string) : list string := nodup string_dec l.

Definition mem (a : string) (l : list string) : bool := existsb (String.eqb a) l.

(** [a - b] *)
Definition set_diff (a b : list string) : list string := filter (fun x => negb (mem x b)) a.

(** [a == b] on sets *)
Definition set_eqb (a b : list string) : bool :=
  forallb (fun x => mem x b) a && forallb (fun x => mem x a) b.

(* ------------------------------------------------------------------ *)
(** ** Error classification of the retry loops *)

(** What an [except] clause of the retry loop does with an exception:
    let an exception propagate out of the loop, or record it and retry,
    logging a warning ([except EmptyPool]) or the exception itself. *)
Inductive Handler :=
  | Propagate (e : Exn)
  | RetryWarn
  | RetryLog.

(** The [except] chain of [Client.predict]:
    [except EmptyPool], [except grpc.RpcError] (re-raised when
    [e.code() == NOT_FOUND and "Model" in e.details()]), [except Exception];
    a BaseException matches no clause. *)
Definition classify_sync (e : Exn) : Handler :=
  match e with
  | EmptyPool => RetryWarn
  | RpcError code details =>
      if StatusCode_beq code NOT_FOUND && py_in "Model" details then Propagate e
      else RetryLog
  | _ => if is_Exception e then RetryLog else Propagate e
  end.

(** The [except] chain of [Client.async_predict]:
    [except asyncio.CancelledError: raise], [except EmptyPool],
    [except GRPCError] (re-raised when
    [e.status == NOT_FOUND and "Model" in e.message]; with [e.message] None
    the test [in] itself raises TypeError inside the clause),
    [except Exception]. *)
Definition classify_async (e : Exn) : Handler :=
  match e with
  | CancelledError => Propagate e
  | EmptyPool => RetryWarn
  | GRPCError status message =>
      if StatusCode_beq status NOT_FOUND then
        match message with
        | None => Propagate (TypeError "argument of type 'NoneType' is not iterable")
        | Some m => if py_in "Model" m then Propagate e else RetryLog
        end
      else RetryLog
  | _ => if is_Exception e then RetryLog else Propagate e
  end.

(* ------------------------------------------------------------------ *)
(** ** The client *)

Section ClientOps.

Variable env : Env.
Variable self : Client.

(** [socket.gethostbyname_ex(host)], keeping the address list. *)
Definition gethostbyname_ex (h : string) : M (list string) :=
  fun s => (env_gethostbyname_ex env (resolve_calls s) h,
            emit (EvResolve h) (tick_resolve s)).

Definition pool_keys : M (list string) := fun s => (Ok (RR.keys (_pool s)), s).

Definition pool_delitem (a : string) : M unit :=
  modify (fun s => set_pool (RR.delitem a (_pool s)) s).

Definition pool_setitem (a : string) (c : Connection) : M unit :=
  fun s => match RR.setitem a c (_pool s) with
           | None => (Exc (KeyError a), s)
           | Some p => (Ok tt, set_pool p s)
           end.

(** [next(iter(self._pool))]; [None] is StopIteration. *)
Definition pool_next : M (option (string * Connection)) :=
  fun s => match RR.next (_pool s) with
           | None => (Ok None, s)
           | Some (e, p) => (Ok (Some e), set_pool p s)
           end.

(** [Connection(addr, port, pem, channel_options, loop)]: opens both
    transport handles and builds both stubs on them. *)
Definition Connection_new (addr : string) (port : Z) (pem : option string) : M Connection :=
  let c := mk_connection addr port pem in
  modify (fun s => set_open (open_channels s ++ [sync_channel c; async_channel c]) s) ;;
  ret c.

(** [Client._setup_connections] *)
Definition _setup_connections : M unit :=
  current <- gethostbyname_ex (host self) ;;
  let current_addrs := py_set current in
  ks <- pool_keys ;;
  let original_addrs := py_set ks in
  if set_eqb original_addrs current_addrs then ret tt
  else
    let missing := set_diff original_addrs current_addrs in
    for_ missing pool_delitem ;;
    let new_addrs := set_diff current_addrs original_addrs in
    for_ new_addrs (fun address =>
      c <- Connection_new address (port self) (pem self) ;;
      pool_setitem address c).

(** [Client.__init__] from an empty state: an empty pool, then
    [_setup_connections]. *)
Definition Client_init : M unit :=
  modify (set_pool RR.empty) ;; _setup_connections.

(** [stub.ListModels(...)] on a channel. *)
Definition call_list_models (ch : Channel) : M (list string) :=
  fun s => (env_list_models env (rpc_calls s) ch, emit (EvListModels ch) (tick_rpc s)).

(** [Client.list_models] *)
Definition list_models : M (list string) :=
  o <- pool_next ;;
  match o with
  | None => raise EmptyPool
  | Some (_, conn) => call_list_models (sync_channel conn)
  end.

(** [Client.get_round_robin_stub] *)
Definition get_round_robin_stub (is_async_stub : bool) : M Stub :=
  o <- pool_next ;;
  match o with
  | None => raise EmptyPool
  | Some (_, conn) => ret (if is_async_stub then async_stub conn else sync_stub conn)
  end.

(** [stub.Predict(request)] (awaited on the concurrent surface). *)
Definition call_predict (stub : Stub) (request : PredictRequest) : M PredictResponse :=
  fun s => (env_predict env (rpc_calls s) stub request, emit (EvPredict stub) (tick_rpc s)).

Definition log_warning (msg : string) : M unit := modify (emit (EvWarning msg)).
Definition log_exception (e : Exn) : M unit := modify (emit (EvException e)).

(** The loop [for _ in range(self.n_trys): ... else: raise RetryFailed]
    shared by [predict] ([is_async_stub = false], [classify_sync]) and
    [async_predict] ([true], [classify_async]); [tries] iterations are
    left and [errors] is the list recorded so far. *)
Fixpoint retry_loop (is_async_stub : bool) (classify : Exn -> Handler)
    (request : PredictRequest) (tries : nat) (errors : list Exn) : M PredictResponse :=
  match tries with
  | O => raise (RetryFailed errors)
  | S k =>
      r <- try_ (stub <- get_round_robin_stub is_async_stub ;; call_predict stub request) ;;
      match r with
      | Ok response => ret response
      | Exc e =>
          match classify e with
          | Propagate e' => raise e'
          | RetryWarn =>
              log_warning "serving_utils.Client -- empty pool" ;;
              _setup_connections ;;
              retry_loop is_async_stub classify request k (errors ++ [e])
          | RetryLog =>
              log_exception e ;;
              _setup_connections ;;
              retry_loop is_async_stub classify request k (errors ++ [e])
          end
      end
  end.

(** [Client.predict] *)
Definition predict (data : list (string * list Z)) (output_names : option (list string))
    (model_name : string) (model_signature_name : option string)
    : M (list (string * list Z)) :=
  _setup_connections ;;
  let request := _predict_request data model_name output_names model_signature_name in
  response <- retry_loop false classify_sync request (Z.to_nat (n_trys self)) [] ;;
  ret (parse_predict_response response).

(** [Client.async_predict] *)
Definition async_predict (data : list (string * list Z)) (output_names : option (list string))
    (model_name : string) (model_signature_name : option string)
    : M (list (string * list Z)) :=
  _setup_connections ;;
  let request := _predict_request data model_name output_names model_signature_name in
  response <- retry_loop true classify_async request (Z.to_nat (n_trys self)) [] ;;
  ret (parse_predict_response response).

End ClientOps.


(** [k] consecutive calls of [m], collecting their results (a caller
    making several calls in a row). *)
Fixpoint repeat_calls {A} (k : nat) (m : M A) : M (list A) :=
  match k with
  | O => ret []
  | Datatypes.S k' => x <- m ;; xs <- repeat_calls k' m ;; ret (x :: xs)
  end.

Definition is_EmptyPool (e : Exn) : bool :=
  match e with EmptyPool => true | _ => false end.

(* ------------------------------------------------------------------ *)
(** ** Pool invariant *)

(** Every pooled connection is the one [_setup_connections] builds for its
    key: [Connection(address, self._port, self._pem, ...)]. *)
Definition pool_consistent (self : Client) (p : RR.RoundRobinMap) : Prop :=
  forall a c, In (a, c) (RR.entries p) -> c = mk_connection a (port self) (pem self).

(** The channel a stub of a pooled address talks through: the blocking
    one is secure exactly when a [pem] was given. *)
Definition stub_for (self : Client) (is_async_stub : bool) (a : string) : Stub :=
  if is_async_stub then PredictionServiceStub (AsyncChannel a (port self))
  else PredictionServiceStub (SyncChannel a (port self)
                                (match pem self with None => false | Some _ => true end)).

(** An operation keeps [pool_consistent], whatever it returns or raises. *)
Definition preserves_pool_consistent {A} (self : Client) (m : M A) : Prop :=
  forall s, pool_consistent self (_pool s) -> pool_consistent self (_pool (snd (m s))).

(* ------------------------------------------------------------------ *)
(** ** [RetryFailed.__str__] *)

(** The characters ["\n"] and ["\t"], and one-character strings of them. *)
Definition nl_char : ascii := ascii_of_nat 10.
Definition tab_char : ascii := ascii_of_nat 9.
Definition nl : string := String nl_char EmptyString.
Definition tab : string := String tab_char EmptyString.

(** Decimal digits of a [Decimal.uint], most significant first. *)
Fixpoint uint_to_string (u : Decimal.uint) : string :=
  match u with
  | Decimal.Nil => EmptyString
  | Decimal.D0 u' => String "0" (uint_to_string u')
  | Decimal.D1 u' => String "1" (uint_to_string u')
  | Decimal.D2 u' => String "2" (uint_to_string u')
  | Decimal.D3 u' => String "3" (uint_to_string u')
  | Decimal.D4 u' => String "4" (uint_to_string u')
  | Decimal.D5 u' => String "5" (uint_to_string u')
  | Decimal.D6 u' => String "6" (uint_to_string u')
  | Decimal.D7 u' => String "7" (uint_to_string u')
  | Decimal.D8 u' => String "8" (uint_to_string u')
  | Decimal.D9 u' => String "9" (uint_to_string u')
  end.

(** [str(i)] for a natural number and for an [int]. *)
Definition py_str_nat (n : nat) : string := uint_to_string (Nat.to_uint n).

Definition py_str_Z (z : Z) : string :=
  match Z.to_int z with
  | Decimal.Pos u => uint_to_string u
  | Decimal.Neg u => "-" ++ uint_to_string u
  end.

(** [s.split(sep)] for a one-character separator [sep]: the pieces between
    separators, an empty piece at either end when [s] starts or ends with
    [sep] ([''.split(sep) == ['']]). *)
Fixpoint py_split (c : ascii) (s : string) : list string :=
  match s with
  | EmptyString => [EmptyString]
  | String x s' =>
      if Ascii.eqb x c then EmptyString :: py_split c s'
      else match py_split c s' with
           | [] => [String x EmptyString]
           | p :: ps => String x p :: ps
           end
  end.

(** [sep.join(l)] *)
Definition py_join (sep : string) (l : list string) : string := String.concat sep l.

(** The message [f"Failed after {self.n_trys} tries"] of the [RetryFailed]
    raised by [predict] and [async_predict]. *)
Definition retry_failed_message (n : Z) : string :=
  "Failed after " ++ py_str_Z n ++ " tries".

(** [super().__repr__()] in [RetryFailed.__str__]: BaseException's repr,
    [type(self).__name__ + '(' + repr(message) + ')'], the message passed to
    [super().__init__]; this message has no quote, backslash or control
    character, so [repr] wraps it in single quotes. *)
Definition RetryFailed_repr (n : Z) : string :=
  "RetryFailed('" ++ retry_failed_message n ++ "')".

Section RetryFailedStr.

(** [repr(e)] of a recorded error, given by the error's own class. *)
Variable py_repr : Exn -> string.

(** [error_msgs] of [RetryFailed.__str__], from [enumerate(errors, i)]. *)
Fixpoint error_msgs (i : nat) (errors : list Exn) : list string :=
  match errors with
  | [] => []
  | e :: es =>
      ("Error " ++ py_str_nat i) ::
      (tab ++ py_join (tab ++ nl) (py_split nl_char (py_repr e))) ::
      error_msgs (S i) es
  end.

(** [RetryFailed.__str__] of the exception raised after [n_trys] tries. *)
Definition RetryFailed_str (n : Z) (errors : list Exn) : string :=
  RetryFailed_repr n ++ nl ++ py_join nl (error_msgs 1 errors).

End RetryFailedStr.

(** How the lines [l1 .. lk] of an error's repr show up as lines of the
    rendered text: the first one gets a leading tab, every one but the last
    a trailing tab. *)
Fixpoint tab_after (L : list string) : list string :=
  match L with
  | [] => []
  | [l] => [l]
  | l :: L' => (l ++ tab) :: tab_after L'
  end.

Definition rendered_lines (L : list string) : list string :=
  match tab_after L with
  | [] => []
  | l :: L' => (tab ++ l) :: L'
  end.

(** Lines of the rendered errors, numbered from [i]. *)
Fixpoint errors_lines (py_repr : Exn -> string) (i : nat) (errors : list Exn) : list string :=
  match errors with
  | [] => []
  | e :: es =>
      ("Error " ++ py_str_nat i) :: (rendered_lines (py_split nl_char (py_repr e)) ++
      errors_lines py_repr (S i) es)%list
  end.

(** The errors a run of attempts accounts for, read off the events it
    logged from the [k]-th RPC on: each Predict RPC, the [k]-th failing
    with [fail k], accounts for that failure and each empty-pool warning
    for an [EmptyPool], in the order of the events. *)
Fixpoint attempt_errors (fail : nat -> Exn) (k : nat) (evs : list Event) : list Exn :=
  match evs with
  | [] => []
  | EvPredict _ :: evs' => fail k :: attempt_errors fail (S k) evs'
  | EvWarning _ :: evs' => EmptyPool :: attempt_errors fail k evs'
  | _ :: evs' => attempt_errors fail k evs'
  end.

(* ------------------------------------------------------------------ *)
(** ** Concrete scenarios *)

Module Scenario.

Definition client (n : Z) : Client :=
  {| host := "serving.local"; port := 8500; n_trys := n; pem := None |}.

(** A resolver that always answers [addrs], RPCs answering [answer k] at
    the k-th call, and [ListModels] answering one model. *)
Definition env (addrs : list string) (answer : nat -> Result PredictResponse) : Env :=
  {| env_gethostbyname_ex := fun _ _ => Ok addrs;
     env_predict := fun k _ _ => answer k;
     env_list_models := fun _ _ => Ok ["default"] |}.

(** A client state whose pool holds [addrs] in this order, cursor at [i],
    with the connections' channels open. *)
Definition state (addrs : list string) (i : nat) : State :=
  {| _pool := {| RR.entries := map (fun a => (a, mk_connection a 8500 None)) addrs;
                 RR.idx := i |};
     open_channels := flat_map (fun a => [sync_channel (mk_connection a 8500 None);
                                         async_channel (mk_connection a 8500 None)]) addrs;
     resolve_calls := 0; rpc_calls := 0; trace := [] |}.

(** A resolver answering [addrs] at its first call and raising [gaierror]
    afterwards, with RPCs answering [answer k]. *)
Definition flaky_env (addrs : list string) (answer : nat -> Result PredictResponse) : Env :=
  {| env_gethostbyname_ex := fun k h => if Nat.eqb k 0 then Ok addrs else Exc (Gaierror h);
     env_predict := fun k _ _ => answer k;
     env_list_models := fun _ _ => Ok ["default"] |}.

Definition ok_response : Result PredictResponse := Ok {| outputs := [("c", [5%Z])] |}.

Definition unavailable (k : nat) : Exn := RpcError UNAVAILABLE "failed to connect to all addresses".

Definition request : PredictRequest :=
  _predict_request [("a", [2%Z]); ("b", [3%Z])] "test_model" (Some ["c"]) (Some "test").

End Scenario.

(* ================================================================== *)
(** * Proofs *)

(* ------------------------------------------------------------------ *)
(** ** The pool *)

Module RRFacts.
Import RR.

Lemma delitem_entries a p : entries (delitem a p) = del_entries a (entries p).
Proof.
  assert (E : entries (delitem a p) =
              match find_index a (entries p) with
              | None => entries p | Some j => remove_nth j (entries p) end).
  { unfold delitem. destruct (find_index a (entries p)); reflexivity. }
  rewrite E. clear E. induction (entries p) as [|[k c] l IH]; simpl; [reflexivity|].
  destruct (String.eqb k a); [reflexivity|].
  destruct (find_index a l); simpl; rewrite <- IH; reflexivity.
Qed.

Lemma del_entries_sub a l x :
  In x (map fst (del_entries a l)) -> In x (map fst l).
Proof.
  induction l as [|[k c] l IH]; simpl; [tauto|].
  destruct (String.eqb k a); simpl; [tauto|]. intuition.
Qed.

Lemma del_entries_nodup a l :
  NoDup (map fst l) ->
  NoDup (map fst (del_entries a l)) /\
  (forall x, In x (map fst (del_entries a l)) <-> In x (map fst l) /\ x <> a).
Proof.
  induction l as [|[k c] l IH]; simpl; intros Hnd.
  - split; [constructor|]. tauto.
  - inversion Hnd as [|? ? Hk Hl]; subst. destruct (IH Hl) as [IH1 IH2].
    destruct (String.eqb k a) eqn:E.
    + apply String.eqb_eq in E; subst. split; [exact Hl|].
      intros x; split.
      * intros Hx; split; [tauto|]. intros ->; contradiction.
      * intros [[->|Hx] Hne]; [congruence|exact Hx].
    + apply String.eqb_neq in E. simpl. split.
      * constructor; [|exact IH1]. intros Hin. apply del_entries_sub in Hin. contradiction.
      * intros x. rewrite IH2. split.
        -- intros [->|[Hx Hne]]; [split; [left; reflexivity|exact E]|tauto].
        -- intros [[->|Hx] Hne]; [left; reflexivity|right; tauto].
Qed.

Lemma fold_delitem_sub xs p x :
  In x (keys (fold_left (fun q a => delitem a q) xs p)) -> In x (keys p).
Proof.
  revert p. induction xs as [|a xs IH]; simpl; intros p Hx; [exact Hx|].
  apply IH in Hx. unfold keys in *. rewrite delitem_entries in Hx.
  eapply del_entries_sub; exact Hx.
Qed.

Lemma fold_delitem_wf xs p :
  wf p ->
  wf (fold_left (fun q a => delitem a q) xs p) /\
  (forall x, In x (keys (fold_left (fun q a => delitem a q) xs p)) <->
             In x (keys p) /\ ~ In x xs).
Proof.
  revert p. induction xs as [|a xs IH]; simpl; intros p Hwf.
  - split; [exact Hwf|]. tauto.
  - destruct (del_entries_nodup a (entries p) Hwf) as [H1 H2].
    rewrite <- delitem_entries in H1, H2.
    destruct (IH _ H1) as [IH1 IH2]. split; [exact IH1|].
    intros x. rewrite IH2. unfold keys in *. rewrite H2. intuition.
Qed.

Lemma setitem_fresh a c p :
  ~ In a (keys p) -> setitem a c p = Some {| entries := entries p ++ [(a, c)]; idx := idx p |}.
Proof.
  intros Hn. unfold setitem, contains.
  destruct (existsb (fun k => String.eqb k a) (keys p)) eqn:E; [|reflexivity].
  apply existsb_exists in E. destruct E as [k [Hk Heq]].
  apply String.eqb_eq in Heq; subst. contradiction.
Qed.

End RRFacts.

(* ------------------------------------------------------------------ *)
(** ** Python sets *)

Lemma mem_In a l : mem a l = true <-> In a l.
Proof.
  unfold mem. rewrite existsb_exists. split.
  - intros [x [Hx E]]. apply String.eqb_eq in E. subst. exact Hx.
  - intros H. exists a. split; [exact H|]. apply String.eqb_refl.
Qed.

Lemma py_set_In x l : In x (py_set l) <-> In x l.
Proof. apply nodup_In. Qed.

Lemma set_diff_In x a b : In x (set_diff a b) <-> In x a /\ ~ In x b.
Proof.
  unfold set_diff. rewrite filter_In, negb_true_iff.
  rewrite <- (mem_In x b). destruct (mem x b).
  - split; intros [H1 H2]; [discriminate|]. exfalso; apply H2; reflexivity.
  - split; intros [H1 H2]; split; auto; discriminate.
Qed.

Lemma set_diff_NoDup a b : NoDup a -> NoDup (set_diff a b).
Proof. apply NoDup_filter. Qed.

Lemma set_eqb_spec a b : set_eqb a b = true <-> (forall x, In x a <-> In x b).
Proof.
  unfold set_eqb. rewrite andb_true_iff, !forallb_forall. split.
  - intros [H1 H2] x. split; intros Hx; apply mem_In; auto.
  - intros H. split; intros x Hx; apply mem_In, H; exact Hx.
Qed.

Lemma map_fst_pairs {B} (f : string -> B) l : map fst (map (fun a => (a, f a)) l) = l.
Proof. induction l; simpl; congruence. Qed.

(* ------------------------------------------------------------------ *)
(** ** Reconciliation *)

(* ------------------------------------------------------------------ *)
(** ** State invariants of the operations *)

Section Invariants.

Variable P : State -> Prop.

Lemma inv_bind {A B} (m : M A) (k : A -> M B) :
  (forall s, P s -> P (snd (m s))) -> (forall a s, P s -> P (snd (k a s))) ->
  forall s, P s -> P (snd (bind m k s)).
Proof.
  intros Hm Hk s Hs. unfold bind. specialize (Hm s Hs).
  destruct (m s) as [[a|e] s'] eqn:E; simpl in Hm.
  - apply Hk. exact Hm.
  - exact Hm.
Qed.

Lemma inv_try {A} (m : M A) :
  (forall s, P s -> P (snd (m s))) -> forall s, P s -> P (snd (try_ m s)).
Proof. intros Hm s Hs. unfold try_. specialize (Hm s Hs). destruct (m s). exact Hm. Qed.

Lemma inv_for {A} (xs : list A) (f : A -> M unit) :
  (forall x s, P s -> P (snd (f x s))) -> forall s, P s -> P (snd (for_ xs f s)).
Proof.
  induction xs as [|x xs IH]; intros Hf s Hs; [exact Hs|].
  cbn [for_]. apply inv_bind; [apply Hf|intros _; apply IH; exact Hf|exact Hs].
Qed.

End Invariants.

Section SetupFacts.

Variable env : Env.
Variable self : Client.

Lemma bind_ok {A B} (m : M A) (k : A -> M B) s a s' :
  m s = (Ok a, s') -> bind m k s = k a s'.
Proof. intros H. unfold bind. rewrite H. reflexivity. Qed.

Lemma bind_exc {A B} (m : M A) (k : A -> M B) s e s' :
  m s = (Exc e, s') -> bind m k s = (Exc e, s').
Proof. intros H. unfold bind. rewrite H. reflexivity. Qed.

Lemma set_pool_set_pool p q s : set_pool p (set_pool q s) = set_pool p s.
Proof. reflexivity. Qed.

Lemma for_pool_delitem xs s :
  for_ xs pool_delitem s =
  (Ok tt, set_pool (fold_left (fun q a => RR.delitem a q) xs (_pool s)) s).
Proof.
  revert s. induction xs as [|a xs IH]; intros s.
  - destruct s; reflexivity.
  - simpl. unfold bind, pool_delitem, modify. rewrite IH. reflexivity.
Qed.

Lemma for_insert l s :
  NoDup l -> (forall x, In x l -> ~ In x (RR.keys (_pool s))) ->
  exists extra,
    for_ l (fun address =>
              c <- Connection_new address (port self) (pem self) ;;
              pool_setitem address c) s =
    (Ok tt, {| _pool := {| RR.entries := RR.entries (_pool s) ++
                              map (fun a => (a, mk_connection a (port self) (pem self))) l;
                           RR.idx := RR.idx (_pool s) |};
               open_channels := open_channels s ++ extra;
               resolve_calls := resolve_calls s; rpc_calls := rpc_calls s;
               trace := trace s |}).
Proof.
  revert s. induction l as [|a l IH]; intros s Hnd Hfr.
  - exists []. simpl. rewrite !app_nil_r. destruct s as [[e i] o r c t]; reflexivity.
  - inversion Hnd as [|? ? Ha Hl]; subst.
    set (c := mk_connection a (port self) (pem self)).
    set (s2 := set_pool {| RR.entries := RR.entries (_pool s) ++ [(a, c)];
                           RR.idx := RR.idx (_pool s) |}
                 (set_open (open_channels s ++ [sync_channel c; async_channel c]) s)).
    cbn [for_]. rewrite (bind_ok _ _ s tt s2).
    2:{ unfold Connection_new, modify, ret, bind, pool_setitem. simpl.
        rewrite RRFacts.setitem_fresh by (apply Hfr; left; reflexivity). reflexivity. }
    destruct (IH s2 Hl) as [extra Hrun].
    { intros x Hx. unfold s2, set_pool, RR.keys; simpl. rewrite map_app. simpl.
      rewrite in_app_iff. intros [Hin|[<-|[]]]; [|contradiction].
      apply (Hfr x); [right; exact Hx|exact Hin]. }
    exists ([sync_channel c; async_channel c] ++ extra)%list.
    rewrite Hrun. unfold s2. simpl. rewrite <- !app_assoc. reflexivity.
Qed.

(** One run of [_setup_connections] when the resolver answers [Sa]: it
    raises nothing; it calls the resolver once and no RPC; it only opens
    channels; when the pool already holds exactly [Sa] it leaves the pool
    as it is; and on a well-formed pool its keys become [Sa]. *)
Lemma setup_run s Sa :
  env_gethostbyname_ex env (resolve_calls s) (host self) = Ok Sa ->
  exists s',
    _setup_connections env self s = (Ok tt, s') /\
    resolve_calls s' = Datatypes.S (resolve_calls s) /\ rpc_calls s' = rpc_calls s /\
    (exists extra, open_channels s' = (open_channels s ++ extra)%list) /\
    ((forall x, In x (RR.keys (_pool s)) <-> In x Sa) ->
       _pool s' = _pool s /\ open_channels s' = open_channels s) /\
    (RR.wf (_pool s) ->
       RR.wf (_pool s') /\ forall x, In x (RR.keys (_pool s')) <-> In x Sa).
Proof.
  intros HS.
  set (s1 := emit (EvResolve (host self)) (tick_resolve s)).
  set (K := RR.keys (_pool s)).
  unfold _setup_connections.
  rewrite (bind_ok _ _ s Sa s1) by (unfold gethostbyname_ex; rewrite HS; reflexivity).
  cbv beta zeta.
  rewrite (bind_ok _ _ s1 K s1) by reflexivity.
  cbv beta zeta.
  destruct (set_eqb (py_set K) (py_set Sa)) eqn:Eq.
  - exists s1. pose proof (proj1 (set_eqb_spec _ _) Eq) as Eqs. clear Eq. rename Eqs into Eq.
    split; [reflexivity|]. split; [reflexivity|]. split; [reflexivity|].
    split; [exists []; simpl; rewrite app_nil_r; reflexivity|].
    split; [split; reflexivity|].
    intros Hwf. split; [exact Hwf|]. intros x. specialize (Eq x).
    rewrite !py_set_In in Eq. exact Eq.
  - set (missing := set_diff (py_set K) (py_set Sa)).
    set (s2 := set_pool (fold_left (fun q a => RR.delitem a q) missing (_pool s1)) s1).
    rewrite (bind_ok _ _ s1 tt s2) by (apply for_pool_delitem).
    set (new := set_diff (py_set Sa) (py_set K)).
    assert (Hnew : forall x, In x new <-> In x Sa /\ ~ In x K).
    { intros x. unfold new. rewrite set_diff_In, !py_set_In. tauto. }
    assert (Hmis : forall x, In x missing <-> In x K /\ ~ In x Sa).
    { intros x. unfold missing. rewrite set_diff_In, !py_set_In. tauto. }
    destruct (for_insert new s2) as [extra Hrun].
    { apply set_diff_NoDup, NoDup_nodup. }
    { intros x Hx Hin. apply RRFacts.fold_delitem_sub in Hin. apply Hnew in Hx. tauto. }
    rewrite Hrun. eexists. split; [reflexivity|].
    split; [reflexivity|]. split; [reflexivity|].
    split; [exists extra; reflexivity|].
    split.
    + intros Hall. exfalso.
      assert (Hc : set_eqb (py_set K) (py_set Sa) = true).
      { apply set_eqb_spec. intros x. rewrite !py_set_In. apply Hall. }
      congruence.
    + intros Hwf.
      change (_pool s1) with (_pool s) in *.
      destruct (RRFacts.fold_delitem_wf missing (_pool s) Hwf) as [Hw1 Hw2].
      unfold RR.wf, RR.keys in *. simpl. rewrite map_app, map_fst_pairs.
      split.
      * apply NoDup_app; [exact Hw1|apply set_diff_NoDup, NoDup_nodup|].
        intros x Hx Hy. apply Hw2 in Hx. apply Hnew in Hy. tauto.
      * intros x. rewrite in_app_iff. unfold RR.keys in Hw2. rewrite Hw2, Hnew, Hmis.
        fold K. destruct (in_dec string_dec x K); destruct (in_dec string_dec x Sa); tauto.
Qed.

End SetupFacts.

(* ------------------------------------------------------------------ *)
(** ** Selection *)

Section Selection.

Lemma next_none p : RR.entries p = [] -> RR.next p = None.
Proof. intros H. unfold RR.next. rewrite H. destruct (RR.idx p mod List.length []); reflexivity. Qed.

Lemma next_nth p d :
  RR.entries p <> [] ->
  RR.next p =
  Some (nth (RR.idx p mod List.length (RR.entries p)) (RR.entries p) d,
        {| RR.entries := RR.entries p;
           RR.idx := Datatypes.S (RR.idx p mod List.length (RR.entries p))
                     mod List.length (RR.entries p) |}).
Proof.
  intros H. unfold RR.next.
  assert (Hn : List.length (RR.entries p) <> 0).
  { destruct (RR.entries p); [contradiction|discriminate]. }
  rewrite (nth_error_nth' _ d) by (apply Nat.mod_upper_bound; exact Hn).
  reflexivity.
Qed.

Lemma next_keeps_entries p e p' : RR.next p = Some (e, p') -> RR.entries p' = RR.entries p.
Proof.
  unfold RR.next. destruct (nth_error _ _); intros H; [|discriminate].
  inversion H; reflexivity.
Qed.

Lemma next_nonempty p : RR.entries p <> [] -> exists e p', RR.next p = Some (e, p').
Proof.
  intros H. destruct (RR.entries p) as [|d l] eqn:E; [contradiction|].
  rewrite (next_nth p d) by (rewrite E; discriminate). eexists; eexists; reflexivity.
Qed.

Lemma get_round_robin_stub_empty b s :
  RR.entries (_pool s) = [] -> get_round_robin_stub b s = (Exc EmptyPool, s).
Proof.
  intros H. unfold get_round_robin_stub, bind, pool_next. rewrite next_none by exact H.
  reflexivity.
Qed.

Lemma add_mod_step i t n :
  (Datatypes.S (i mod n) mod n + t) mod n = (i + Datatypes.S t) mod n.
Proof.
  rewrite Nat.Div0.add_mod_idemp_l. replace (Datatypes.S (i mod n) + t) with (i mod n + Datatypes.S t) by lia.
  apply Nat.Div0.add_mod_idemp_l.
Qed.

Lemma repeat_get_round_robin_stub b d k :
  forall s l i, _pool s = {| RR.entries := l; RR.idx := i |} -> l <> [] ->
  exists j,
    repeat_calls k (get_round_robin_stub b) s =
    (Ok (map (fun t => let e := nth ((i + t) mod List.length l) l d in
                       if b then async_stub (snd e) else sync_stub (snd e)) (seq 0 k)),
     set_pool {| RR.entries := l; RR.idx := j |} s).
Proof.
  induction k as [|k IH]; intros s l i Hp Hl.
  - exists i. rewrite <- Hp. destruct s; reflexivity.
  - set (n := List.length l).
    set (i' := Datatypes.S (i mod n) mod n).
    set (s1 := set_pool {| RR.entries := l; RR.idx := i' |} s).
    cbn [repeat_calls].
    rewrite (bind_ok _ _ s (let e := nth (i mod n) l d in
                            if b then async_stub (snd e) else sync_stub (snd e)) s1).
    2:{ unfold get_round_robin_stub, bind, pool_next. rewrite Hp.
        rewrite (next_nth _ d) by exact Hl. simpl. fold n.
        destruct (nth (i mod n) l d); reflexivity. }
    destruct (IH s1 l i' eq_refl Hl) as [j Hj].
    exists j. rewrite (bind_ok _ _ _ _ _ Hj). unfold ret. f_equal. simpl.
    rewrite Nat.add_0_r. f_equal.
    rewrite <- seq_shift, map_map. f_equal. apply map_ext. intros t.
    unfold i'. fold n. rewrite add_mod_step. reflexivity.
Qed.

Lemma mod_wrap a n : n <= a < n + n -> a mod n = a - n.
Proof. intros H. symmetry. apply (Nat.mod_unique a n 1); lia. Qed.

Lemma rotation_perm {A} (l : list A) d i :
  l <> [] ->
  Permutation (map (fun t => nth ((i + t) mod List.length l) l d) (seq 0 (List.length l))) l.
Proof.
  intros Hl. set (n := List.length l).
  assert (Hn : n <> 0) by (unfold n; destruct l; [contradiction|discriminate]).
  set (r := i mod n).
  assert (Hr : r < n) by (apply Nat.mod_upper_bound; exact Hn).
  assert (E : map (fun t => nth ((i + t) mod n) l d) (seq 0 n) = (skipn r l ++ firstn r l)%list).
  { apply nth_ext with (d := nth ((i + 0) mod n) l d) (d' := d).
    - rewrite length_map, length_seq, length_app, length_skipn, length_firstn. fold n. lia.
    - intros t Ht. rewrite length_map, length_seq in Ht.
      rewrite (map_nth (fun t => nth ((i + t) mod n) l d) (seq 0 n) 0 t).
      rewrite seq_nth by exact Ht. simpl.
      rewrite <- (Nat.Div0.add_mod_idemp_l i t n). fold r.
      destruct (Nat.lt_ge_cases t (n - r)) as [Hlt|Hge].
      + rewrite app_nth1 by (rewrite length_skipn; fold n; lia).
        rewrite nth_skipn. rewrite Nat.mod_small by lia. reflexivity.
      + rewrite app_nth2 by (rewrite length_skipn; fold n; lia).
        rewrite length_skipn. fold n.
        rewrite nth_firstn. destruct (Nat.ltb_spec (t - (n - r)) r) as [Hb|Hb]; [|lia].
        rewrite mod_wrap by lia. f_equal. lia. }
  rewrite E. eapply Permutation_trans; [apply Permutation_app_comm|].
  rewrite firstn_skipn. apply Permutation_refl.
Qed.

End Selection.

(* ------------------------------------------------------------------ *)
(** ** Claims on selection and reconciliation *)

(** C1 (fairness): for every client state whose pool holds K distinct
    addresses, inserted in any order and with the rotation cursor
    anywhere, K consecutive calls of [get_round_robin_stub] (the pool not
    mutated in between) return the stubs of K pool entries that form a
    permutation of the pool's entries, so each of the K addresses is
    visited exactly once; the pool's entries are left as they were. *)
Theorem round_robin_visits_each_once (b : bool) (s : State) :
  RR.wf (_pool s) ->
  exists sel s',
    repeat_calls (List.length (RR.entries (_pool s))) (get_round_robin_stub b) s =
      (Ok (map (fun e => if b then async_stub (snd e) else sync_stub (snd e)) sel), s') /\
    Permutation sel (RR.entries (_pool s)) /\
    NoDup (map fst sel) /\
    RR.entries (_pool s') = RR.entries (_pool s).
Proof.
  intros Hwf. unfold RR.wf, RR.keys in Hwf.
  destruct (_pool s) as [l i] eqn:Hp. simpl in *.
  destruct l as [|d l'].
  - exists [], s. rewrite Hp. repeat split; constructor.
  - set (l := d :: l') in *.
    destruct (repeat_get_round_robin_stub b d (List.length l) s l i Hp ltac:(discriminate))
      as [j Hj].
    assert (Hperm := rotation_perm l d i ltac:(discriminate)).
    exists (map (fun t => nth ((i + t) mod List.length l) l d) (seq 0 (List.length l))),
           (set_pool {| RR.entries := l; RR.idx := j |} s).
    split; [|split; [exact Hperm|split]].
    + rewrite Hj. rewrite map_map. reflexivity.
    + eapply Permutation_NoDup; [|exact Hwf].
      apply Permutation_map, Permutation_sym, Hperm.
    + reflexivity.
Qed.

Lemma round_robin_visits_each_once_witness :
  RR.wf (_pool (Scenario.state ["10.0.0.1"; "10.0.0.2"; "10.0.0.3"] 1)) /\
  exists sel s',
    repeat_calls 3 (get_round_robin_stub false) (Scenario.state ["10.0.0.1"; "10.0.0.2"; "10.0.0.3"] 1) =
      (Ok (map (fun e => sync_stub (snd e)) sel), s') /\
    Permutation sel (RR.entries (_pool (Scenario.state ["10.0.0.1"; "10.0.0.2"; "10.0.0.3"] 1))) /\
    NoDup (map fst sel) /\
    RR.entries (_pool s') = RR.entries (_pool (Scenario.state ["10.0.0.1"; "10.0.0.2"; "10.0.0.3"] 1)).
Proof.
  assert (H : RR.wf (_pool (Scenario.state ["10.0.0.1"; "10.0.0.2"; "10.0.0.3"] 1))).
  { unfold RR.wf, RR.keys. simpl. repeat constructor; simpl; intuition discriminate. }
  split; [exact H|].
  exact (round_robin_visits_each_once false _ H).
Defined.

(** C2 (membership convergence): for every well-formed prior pool and
    every address list [Sa] the resolver returns, one run of
    [_setup_connections] succeeds and leaves the pool's key set equal to
    [Sa]; a second run with the same answer [Sa] takes the fast path:
    pool (entries and cursor) and open channels are unchanged. *)
Theorem setup_connections_converges env self s Sa :
  RR.wf (_pool s) ->
  env_gethostbyname_ex env (resolve_calls s) (host self) = Ok Sa ->
  env_gethostbyname_ex env (Datatypes.S (resolve_calls s)) (host self) = Ok Sa ->
  exists s1 s2,
    _setup_connections env self s = (Ok tt, s1) /\
    (forall x, In x (RR.keys (_pool s1)) <-> In x Sa) /\
    _setup_connections env self s1 = (Ok tt, s2) /\
    _pool s2 = _pool s1 /\ open_channels s2 = open_channels s1.
Proof.
  intros Hwf H1 H2.
  destruct (setup_run env self s Sa H1) as (s1 & Hrun1 & Hr1 & _ & _ & _ & Hwf1).
  destruct (Hwf1 Hwf) as [_ Hkeys].
  rewrite <- Hr1 in H2.
  destruct (setup_run env self s1 Sa H2) as (s2 & Hrun2 & _ & _ & _ & Hfast & _).
  exists s1, s2. split; [exact Hrun1|]. split; [exact Hkeys|].
  split; [exact Hrun2|]. apply Hfast, Hkeys.
Qed.

Lemma setup_connections_converges_witness :
  RR.wf (_pool (Scenario.state ["10.0.0.2"; "10.0.0.3"] 0)) /\
  env_gethostbyname_ex (Scenario.env ["10.0.0.1"; "10.0.0.2"] (fun _ => Scenario.ok_response)) 0
    "serving.local" = Ok ["10.0.0.1"; "10.0.0.2"] /\
  env_gethostbyname_ex (Scenario.env ["10.0.0.1"; "10.0.0.2"] (fun _ => Scenario.ok_response)) 1
    "serving.local" = Ok ["10.0.0.1"; "10.0.0.2"] /\
  exists s1 s2,
    _setup_connections (Scenario.env ["10.0.0.1"; "10.0.0.2"] (fun _ => Scenario.ok_response))
      (Scenario.client 3) (Scenario.state ["10.0.0.2"; "10.0.0.3"] 0) = (Ok tt, s1) /\
    (forall x, In x (RR.keys (_pool s1)) <-> In x ["10.0.0.1"; "10.0.0.2"]) /\
    _setup_connections (Scenario.env ["10.0.0.1"; "10.0.0.2"] (fun _ => Scenario.ok_response))
      (Scenario.client 3) s1 = (Ok tt, s2) /\
    _pool s2 = _pool s1 /\ open_channels s2 = open_channels s1.
Proof.
  assert (H : RR.wf (_pool (Scenario.state ["10.0.0.2"; "10.0.0.3"] 0))).
  { unfold RR.wf, RR.keys. simpl. repeat constructor; simpl; intuition discriminate. }
  split; [exact H|]. split; [reflexivity|]. split; [reflexivity|].
  exact (setup_connections_converges
           (Scenario.env ["10.0.0.1"; "10.0.0.2"] (fun _ => Scenario.ok_response))
           (Scenario.client 3) _ _ H eq_refl eq_refl).
Defined.

(** C5 as stated (eviction closes the evicted connection's channels) is
    refuted: reconciling a pool holding 10.0.0.1 against a resolver that
    now answers only 10.0.0.2 evicts 10.0.0.1, and both of its channels are
    still open afterwards. *)
Lemma evicted_channels_closed_counterexample :
  ~ (forall env self s Sa s',
       RR.wf (_pool s) ->
       env_gethostbyname_ex env (resolve_calls s) (host self) = Ok Sa ->
       _setup_connections env self s = (Ok tt, s') ->
       forall a c, In (a, c) (RR.entries (_pool s)) -> ~ In a Sa ->
       ~ In (sync_channel c) (open_channels s') /\ ~ In (async_channel c) (open_channels s')).
Proof.
  intros H.
  set (env := Scenario.env ["10.0.0.2"] (fun _ => Scenario.ok_response)).
  set (s := Scenario.state ["10.0.0.1"] 0).
  set (c := mk_connection "10.0.0.1" 8500 None).
  destruct (H env (Scenario.client 3) s ["10.0.0.2"]
              (snd (_setup_connections env (Scenario.client 3) s)))
    with (a := "10.0.0.1") (c := c) as [Hsync _].
  - unfold RR.wf, RR.keys. simpl. repeat constructor; simpl; tauto.
  - reflexivity.
  - vm_compute. reflexivity.
  - simpl. left. reflexivity.
  - simpl. intuition discriminate.
  - apply Hsync. vm_compute. left. reflexivity.
Qed.

(** C5, amended: reconciliation removes every evicted address from the
    pool, but never closes a transport handle: every channel open before
    [_setup_connections] is still open after it (the source has no close
    call, and [Connection] has no close method). *)
Theorem setup_connections_evicts_without_closing env self s Sa :
  RR.wf (_pool s) ->
  env_gethostbyname_ex env (resolve_calls s) (host self) = Ok Sa ->
  exists s',
    _setup_connections env self s = (Ok tt, s') /\
    (forall a, In a (RR.keys (_pool s)) -> ~ In a Sa -> ~ In a (RR.keys (_pool s'))) /\
    (forall ch, In ch (open_channels s) -> In ch (open_channels s')).
Proof.
  intros Hwf HS.
  destruct (setup_run env self s Sa HS) as (s' & Hrun & _ & _ & [extra Hopen] & _ & Hwf').
  exists s'. split; [exact Hrun|]. split.
  - intros a _ Hn Hin. apply (proj2 (Hwf' Hwf) a) in Hin. contradiction.
  - intros ch Hch. rewrite Hopen. apply in_or_app. left. exact Hch.
Qed.

Lemma setup_connections_evicts_without_closing_witness :
  RR.wf (_pool (Scenario.state ["10.0.0.1"] 0)) /\
  env_gethostbyname_ex (Scenario.env ["10.0.0.2"] (fun _ => Scenario.ok_response)) 0
    "serving.local" = Ok ["10.0.0.2"] /\
  exists s',
    _setup_connections (Scenario.env ["10.0.0.2"] (fun _ => Scenario.ok_response))
      (Scenario.client 3) (Scenario.state ["10.0.0.1"] 0) = (Ok tt, s') /\
    (forall a, In a (RR.keys (_pool (Scenario.state ["10.0.0.1"] 0))) -> ~ In a ["10.0.0.2"] ->
               ~ In a (RR.keys (_pool s'))) /\
    (forall ch, In ch (open_channels (Scenario.state ["10.0.0.1"] 0)) -> In ch (open_channels s')).
Proof.
  assert (H : RR.wf (_pool (Scenario.state ["10.0.0.1"] 0))).
  { unfold RR.wf, RR.keys. simpl. repeat constructor; simpl; tauto. }
  split; [exact H|]. split; [reflexivity|].
  exact (setup_connections_evicts_without_closing
           (Scenario.env ["10.0.0.2"] (fun _ => Scenario.ok_response))
           (Scenario.client 3) _ _ H eq_refl).
Defined.

(** C6 fails for [list_models]: with a pool still holding 10.0.0.1 while
    the resolver answers 10.0.0.2, [list_models] makes no resolver call
    and sends ListModels to the stale 10.0.0.1, whereas [predict] on the
    same state starts with a resolver call. *)
Lemma list_models_skips_reconciliation :
  (let '(r, s') := list_models (Scenario.env ["10.0.0.2"] (fun _ => Scenario.ok_response))
                     (Scenario.state ["10.0.0.1"] 0) in
   r = Ok ["default"] /\ resolve_calls s' = 0 /\
   trace s' = [EvListModels (SyncChannel "10.0.0.1" 8500 false)] /\
   RR.keys (_pool s') = ["10.0.0.1"]) /\
  (let '(_, s') := predict (Scenario.env ["10.0.0.2"] (fun _ => Scenario.ok_response))
                     (Scenario.client 3) [] None "default" None (Scenario.state ["10.0.0.1"] 0) in
   hd_error (trace s') = Some (EvResolve "serving.local") /\
   trace s' = [EvResolve "serving.local";
               EvPredict (PredictionServiceStub (SyncChannel "10.0.0.2" 8500 false))]).
Proof. vm_compute. repeat split. Qed.

(* ------------------------------------------------------------------ *)
(** ** The retry loop *)

Section LoopFacts.

Variable env : Env.
Variable self : Client.

Lemma attempt_empty b req s :
  RR.entries (_pool s) = [] ->
  try_ (stub <- get_round_robin_stub b ;; call_predict env stub req) s = (Ok (Exc EmptyPool), s).
Proof.
  intros H. unfold try_.
  rewrite (bind_exc _ _ s EmptyPool s) by (apply get_round_robin_stub_empty; exact H).
  reflexivity.
Qed.

Lemma attempt_call b req s e p' :
  RR.next (_pool s) = Some (e, p') ->
  try_ (stub <- get_round_robin_stub b ;; call_predict env stub req) s =
  (Ok (env_predict env (rpc_calls s) (if b then async_stub (snd e) else sync_stub (snd e)) req),
   emit (EvPredict (if b then async_stub (snd e) else sync_stub (snd e)))
        (tick_rpc (set_pool p' s))).
Proof.
  intros H. unfold try_, get_round_robin_stub, pool_next, bind. cbv beta. rewrite H.
  destruct e; reflexivity.
Qed.

Lemma loop_step_propagate b cl req k errors s e e' s1 :
  try_ (stub <- get_round_robin_stub b ;; call_predict env stub req) s = (Ok (Exc e), s1) ->
  cl e = Propagate e' ->
  retry_loop env self b cl req (Datatypes.S k) errors s = (Exc e', s1).
Proof.
  intros H Hc. cbn [retry_loop]. rewrite (bind_ok _ _ _ _ _ H). cbv beta iota.
  rewrite Hc. reflexivity.
Qed.

Lemma loop_step_warn b cl req k errors s e s1 s2 :
  try_ (stub <- get_round_robin_stub b ;; call_predict env stub req) s = (Ok (Exc e), s1) ->
  cl e = RetryWarn ->
  _setup_connections env self (emit (EvWarning "serving_utils.Client -- empty pool") s1) = (Ok tt, s2) ->
  retry_loop env self b cl req (Datatypes.S k) errors s =
  retry_loop env self b cl req k (errors ++ [e]) s2.
Proof.
  intros H Hc Hs. cbn [retry_loop]. rewrite (bind_ok _ _ _ _ _ H). cbv beta iota.
  rewrite Hc. unfold log_warning, modify at 1. unfold bind at 1.
  unfold bind at 1. rewrite Hs. reflexivity.
Qed.

Lemma loop_step_log b cl req k errors s e s1 s2 :
  try_ (stub <- get_round_robin_stub b ;; call_predict env stub req) s = (Ok (Exc e), s1) ->
  cl e = RetryLog ->
  _setup_connections env self (emit (EvException e) s1) = (Ok tt, s2) ->
  retry_loop env self b cl req (Datatypes.S k) errors s =
  retry_loop env self b cl req k (errors ++ [e]) s2.
Proof.
  intros H Hc Hs. cbn [retry_loop]. rewrite (bind_ok _ _ _ _ _ H). cbv beta iota.
  rewrite Hc. unfold log_exception, modify at 1. unfold bind at 1.
  unfold bind at 1. rewrite Hs. reflexivity.
Qed.

End LoopFacts.

Section LoopRuns.

Variable env : Env.
Variable self : Client.

Lemma keys_nonempty p Sa :
  Sa <> [] -> (forall x, In x (RR.keys p) <-> In x Sa) -> RR.entries p <> [].
Proof.
  intros HS Hk He. destruct Sa as [|x Sa']; [contradiction|].
  assert (Hx := proj2 (Hk x) (or_introl eq_refl)). unfold RR.keys in Hx. rewrite He in Hx.
  exact Hx.
Qed.

(** Every attempt fails: the loop records exactly [tries] errors; those
    that are not [EmptyPool] are the RPC failures, in call order. *)
Lemma retry_loop_all_fail b cl req (fail : nat -> Exn) :
  (forall k, exists Sa, env_gethostbyname_ex env k (host self) = Ok Sa) ->
  (forall k st rq, env_predict env k st rq = Exc (fail k)) ->
  (forall k, cl (fail k) = RetryLog) ->
  cl EmptyPool = RetryWarn ->
  forall tries errors s,
  exists new s',
    retry_loop env self b cl req tries errors s = (Exc (RetryFailed (errors ++ new)), s') /\
    List.length new = tries /\
    filter (fun e => negb (is_EmptyPool e)) new =
      map fail (seq (rpc_calls s) (rpc_calls s' - rpc_calls s)) /\
    rpc_calls s <= rpc_calls s'.
Proof.
  intros Hres Hrpc Hcl Hep.
  induction tries as [|t IH]; intros errors s.
  - exists [], s. rewrite app_nil_r, Nat.sub_diag. repeat split; lia.
  - destruct (RR.entries (_pool s)) as [|d l] eqn:E.
    + destruct (Hres (resolve_calls s)) as [Sa HS].
      destruct (setup_run env self (emit (EvWarning "serving_utils.Client -- empty pool") s) Sa HS)
        as (s2 & Hrun & _ & Hrpc2 & _).
      rewrite (loop_step_warn env self b cl req t errors s EmptyPool s s2
                 (attempt_empty env b req s E) Hep Hrun).
      destruct (IH (errors ++ [EmptyPool])%list s2) as (new & s' & Hl & Hlen & Hf & Hle).
      exists (EmptyPool :: new), s'. rewrite <- app_assoc in Hl. simpl in Hrpc2.
      rewrite Hrpc2 in Hf, Hle. split; [exact Hl|]. simpl. split; [lia|]. split; [exact Hf|exact Hle].
    + destruct (next_nonempty (_pool s)) as (e & p' & Hn); [rewrite E; discriminate|].
      set (st := if b then async_stub (snd e) else sync_stub (snd e)).
      assert (Ha := attempt_call env b req s e p' Hn). rewrite Hrpc in Ha.
      destruct (Hres (resolve_calls s)) as [Sa HS].
      destruct (setup_run env self (emit (EvException (fail (rpc_calls s)))
                                      (emit (EvPredict st) (tick_rpc (set_pool p' s)))) Sa HS)
        as (s2 & Hrun & _ & Hrpc2 & _).
      rewrite (loop_step_log env self b cl req t errors s _ _ s2 Ha (Hcl _) Hrun).
      destruct (IH (errors ++ [fail (rpc_calls s)])%list s2) as (new & s' & Hl & Hlen & Hf & Hle).
      exists (fail (rpc_calls s) :: new), s'. rewrite <- app_assoc in Hl. simpl in Hrpc2.
      rewrite Hrpc2 in Hf, Hle.
      split; [exact Hl|]. simpl. split; [lia|]. split; [|lia].
      destruct (is_EmptyPool (fail (rpc_calls s))) eqn:Hep'.
      * exfalso. destruct (fail (rpc_calls s)) eqn:Ef; try discriminate.
        specialize (Hcl (rpc_calls s)). rewrite Ef, Hep in Hcl. discriminate.
      * simpl. rewrite Hf. replace (rpc_calls s' - rpc_calls s)
          with (Datatypes.S (rpc_calls s' - Datatypes.S (rpc_calls s))) by lia.
        reflexivity.
Qed.

(** Reconciliation logs the resolver call and nothing else. *)
Lemma setup_trace s :
  trace (snd (_setup_connections env self s)) = (trace s ++ [EvResolve (host self)])%list.
Proof.
  set (P := fun s' : State => trace s' = (trace s ++ [EvResolve (host self)])%list).
  change (P (snd (_setup_connections env self s))).
  unfold _setup_connections. unfold bind at 1. unfold gethostbyname_ex at 1.
  destruct (env_gethostbyname_ex env (resolve_calls s) (host self)) as [current|e];
    [|reflexivity].
  cbv beta.
  assert (HP : P (emit (EvResolve (host self)) (tick_resolve s))) by reflexivity.
  revert HP. generalize (emit (EvResolve (host self)) (tick_resolve s)) as s1.
  apply inv_bind; [intros s' H; exact H|intros ks]. cbv zeta.
  destruct (set_eqb _ _); [intros s' H; exact H|].
  apply inv_bind; [apply inv_for; intros x s' H; exact H|intros _].
  apply inv_for. intros a s' H.
  unfold bind, Connection_new, modify, ret, pool_setitem.
  simpl. destruct (RR.setitem a (mk_connection a (port self) (pem self)) (_pool s')); exact H.
Qed.

(** Every attempt fails: the errors the loop adds are those its logged
    attempts account for, in order. *)
Lemma retry_loop_all_fail_attempts b cl req (fail : nat -> Exn) :
  (forall k, exists Sa, env_gethostbyname_ex env k (host self) = Ok Sa) ->
  (forall k st rq, env_predict env k st rq = Exc (fail k)) ->
  (forall k, cl (fail k) = RetryLog) ->
  cl EmptyPool = RetryWarn ->
  forall tries errors s,
  exists new s' evs,
    retry_loop env self b cl req tries errors s = (Exc (RetryFailed (errors ++ new)), s') /\
    trace s' = (trace s ++ evs)%list /\
    new = attempt_errors fail (rpc_calls s) evs.
Proof.
  intros Hres Hrpc Hcl Hep.
  induction tries as [|t IH]; intros errors s.
  - exists [], s, []. rewrite !app_nil_r. repeat split.
  - destruct (RR.entries (_pool s)) as [|d l] eqn:E.
    + set (s1 := emit (EvWarning "serving_utils.Client -- empty pool") s).
      destruct (Hres (resolve_calls s)) as [Sa HS].
      destruct (setup_run env self s1 Sa HS) as (s2 & Hrun & _ & Hrpc2 & _).
      assert (Ht2 := setup_trace s1). rewrite Hrun in Ht2. simpl in Ht2.
      rewrite (loop_step_warn env self b cl req t errors s EmptyPool s s2
                 (attempt_empty env b req s E) Hep Hrun).
      destruct (IH (errors ++ [EmptyPool])%list s2) as (new & s' & evs & Hl & Ht & Hn).
      exists (EmptyPool :: new), s',
        (EvWarning "serving_utils.Client -- empty pool" :: EvResolve (host self) :: evs).
      rewrite <- app_assoc in Hl. split; [exact Hl|]. split.
      * rewrite Ht, Ht2, <- !app_assoc. reflexivity.
      * simpl. f_equal. rewrite Hn, Hrpc2. reflexivity.
    + destruct (next_nonempty (_pool s)) as (e & p' & Hn); [rewrite E; discriminate|].
      set (st := if b then async_stub (snd e) else sync_stub (snd e)).
      assert (Ha := attempt_call env b req s e p' Hn). rewrite Hrpc in Ha.
      set (s1 := emit (EvException (fail (rpc_calls s)))
                   (emit (EvPredict st) (tick_rpc (set_pool p' s)))).
      destruct (Hres (resolve_calls s)) as [Sa HS].
      destruct (setup_run env self s1 Sa HS) as (s2 & Hrun & _ & Hrpc2 & _).
      assert (Ht2 := setup_trace s1). rewrite Hrun in Ht2. simpl in Ht2.
      rewrite (loop_step_log env self b cl req t errors s _ _ s2 Ha (Hcl _) Hrun).
      destruct (IH (errors ++ [fail (rpc_calls s)])%list s2) as (new & s' & evs & Hl & Ht & Hn').
      exists (fail (rpc_calls s) :: new), s',
        (EvPredict st :: EvException (fail (rpc_calls s)) :: EvResolve (host self) :: evs).
      rewrite <- app_assoc in Hl. split; [exact Hl|]. split.
      * rewrite Ht, Ht2, <- !app_assoc. reflexivity.
      * simpl. f_equal. rewrite Hn', Hrpc2. reflexivity.
Qed.

(** The resolver answers nothing and the pool is empty: every attempt
    records an [EmptyPool]. *)
Lemma retry_loop_empty b cl req :
  (forall k, env_gethostbyname_ex env k (host self) = Ok []) ->
  cl EmptyPool = RetryWarn ->
  forall tries errors s,
  RR.entries (_pool s) = [] ->
  exists s',
    retry_loop env self b cl req tries errors s =
    (Exc (RetryFailed (errors ++ repeat EmptyPool tries)), s').
Proof.
  intros Hres Hep. induction tries as [|t IH]; intros errors s E.
  - exists s. rewrite app_nil_r. reflexivity.
  - destruct (setup_run env self (emit (EvWarning "serving_utils.Client -- empty pool") s) []
                (Hres _)) as (s2 & Hrun & _ & _ & _ & Hfast & _).
    rewrite (loop_step_warn env self b cl req t errors s EmptyPool s s2
               (attempt_empty env b req s E) Hep Hrun).
    destruct (IH (errors ++ [EmptyPool])%list s2) as [s' Hl].
    + destruct Hfast as [Hp _].
      * simpl. unfold RR.keys. rewrite E. simpl. tauto.
      * rewrite Hp. exact E.
    + exists s'. rewrite Hl, <- app_assoc. reflexivity.
Qed.

(** Over a stable non-empty membership, [j] retryable failures followed
    by a failure the classifier propagates: the loop ends with that
    failure alone, provided [j] is below the remaining budget. *)
Lemma retry_loop_fatal_after b cl req Sa (fail : nat -> Exn) fatal :
  Sa <> [] ->
  (forall k, env_gethostbyname_ex env k (host self) = Ok Sa) ->
  (forall k, cl (fail k) = RetryLog) ->
  cl fatal = Propagate fatal ->
  forall j tries errors s,
  j < tries ->
  (forall x, In x (RR.keys (_pool s)) <-> In x Sa) ->
  (forall k st rq, rpc_calls s <= k < rpc_calls s + j -> env_predict env k st rq = Exc (fail k)) ->
  (forall st rq, env_predict env (rpc_calls s + j) st rq = Exc fatal) ->
  exists s', retry_loop env self b cl req tries errors s = (Exc fatal, s').
Proof.
  intros HSa Hres Hcl Hfat.
  induction j as [|j IH]; intros tries errors s Hj Hk Hfail Hlast;
    (destruct tries as [|t]; [lia|]);
    destruct (next_nonempty (_pool s)) as (e & p' & Hn);
    try (apply (keys_nonempty _ Sa HSa Hk)).
  - assert (Ha := attempt_call env b req s e p' Hn).
    rewrite <- (Nat.add_0_r (rpc_calls s)) in Ha. rewrite Hlast in Ha.
    eexists. exact (loop_step_propagate env self b cl req t errors s _ _ _ Ha Hfat).
  - set (st := if b then async_stub (snd e) else sync_stub (snd e)).
    assert (Ha := attempt_call env b req s e p' Hn).
    rewrite (Hfail (rpc_calls s)) in Ha by lia.
    set (s1 := emit (EvException (fail (rpc_calls s)))
                 (emit (EvPredict st) (tick_rpc (set_pool p' s)))).
    destruct (setup_run env self s1 Sa (Hres _)) as (s2 & Hrun & _ & Hrpc2 & _ & Hfast & _).
    assert (Hk1 : forall x, In x (RR.keys (_pool s1)) <-> In x Sa).
    { intros x. unfold s1, RR.keys. simpl. rewrite (next_keeps_entries _ _ _ Hn). apply Hk. }
    destruct (Hfast Hk1) as [Hp2 _].
    rewrite (loop_step_log env self b cl req t errors s _ _ s2 Ha (Hcl _) Hrun).
    apply IH; [lia| | |].
    + rewrite Hp2. exact Hk1.
    + intros k st' rq Hr. apply Hfail. rewrite Hrpc2 in Hr. simpl in Hr. lia.
    + intros st' rq. rewrite Hrpc2. simpl.
      replace (Datatypes.S (rpc_calls s + j)) with (rpc_calls s + Datatypes.S j) by lia.
      apply Hlast.
Qed.

End LoopRuns.

(* ------------------------------------------------------------------ *)
(** ** Claims on retries and error handling *)

(** C3 (retry budget): for every budget [n_trys >= 0] (3 by default), when
    the resolver always answers and every RPC attempt fails with an error
    [predict] retries (the k-th RPC failing with [fail k]), [predict]
    raises [RetryFailed] whose error list has exactly [n_trys] entries,
    one per attempt in the order the attempts failed: reading the events
    the call logged, each Predict RPC (the k-th failing with [fail k])
    contributes its failure and each attempt that found the pool empty,
    logged by its warning, contributes an [EmptyPool], at its place;
    without the [EmptyPool] records, they are the RPC failures in the
    order the calls were made. *)
Theorem predict_retry_budget env self s data output_names model_name sig (fail : nat -> Exn) :
  (0 <= n_trys self)%Z ->
  (forall k, exists Sa, env_gethostbyname_ex env k (host self) = Ok Sa) ->
  (forall k st rq, env_predict env k st rq = Exc (fail k)) ->
  (forall k, classify_sync (fail k) = RetryLog) ->
  exists errors s',
    predict env self data output_names model_name sig s = (Exc (RetryFailed errors), s') /\
    Z.of_nat (List.length errors) = n_trys self /\
    filter (fun e => negb (is_EmptyPool e)) errors =
      map fail (seq (rpc_calls s) (rpc_calls s' - rpc_calls s)) /\
    exists evs, trace s' = (trace s ++ evs)%list /\ errors = attempt_errors fail (rpc_calls s) evs.
Proof.
  intros Hn Hres Hrpc Hcl.
  destruct (Hres (resolve_calls s)) as [Sa HS].
  destruct (setup_run env self s Sa HS) as (s1 & Hrun & _ & Hrpc1 & _).
  assert (Ht1 := setup_trace env self s). rewrite Hrun in Ht1. simpl in Ht1.
  destruct (retry_loop_all_fail env self false classify_sync
              (_predict_request data model_name output_names sig) fail Hres Hrpc Hcl eq_refl
              (Z.to_nat (n_trys self)) [] s1) as (new & s' & Hl & Hlen & Hf & _).
  destruct (retry_loop_all_fail_attempts env self false classify_sync
              (_predict_request data model_name output_names sig) fail Hres Hrpc Hcl eq_refl
              (Z.to_nat (n_trys self)) [] s1) as (new' & s'' & evs & Hl' & Ht & Hev).
  rewrite Hl in Hl'. injection Hl' as Enew Es. simpl in Enew. subst new' s''.
  exists new, s'. unfold predict.
  rewrite (bind_ok _ _ _ _ _ Hrun). cbv beta zeta.
  rewrite (bind_exc _ _ _ _ _ Hl). split; [reflexivity|]. split; [|split].
  - rewrite Hlen. apply Z2Nat.id, Hn.
  - rewrite Hrpc1 in Hf. exact Hf.
  - exists (EvResolve (host self) :: evs). split.
    + rewrite Ht, Ht1, <- app_assoc. reflexivity.
    + rewrite Hev, Hrpc1. reflexivity.
Qed.

Lemma predict_retry_budget_witness :
  (0 <= n_trys (Scenario.client 3))%Z /\
  (forall k, exists Sa,
     env_gethostbyname_ex (Scenario.env ["10.0.0.1"] (fun k => Exc (Scenario.unavailable k))) k
       (host (Scenario.client 3)) = Ok Sa) /\
  (forall k st rq,
     env_predict (Scenario.env ["10.0.0.1"] (fun k => Exc (Scenario.unavailable k))) k st rq =
     Exc (Scenario.unavailable k)) /\
  (forall k, classify_sync (Scenario.unavailable k) = RetryLog) /\
  exists errors s',
    predict (Scenario.env ["10.0.0.1"] (fun k => Exc (Scenario.unavailable k))) (Scenario.client 3)
      [] None "default" None (Scenario.state ["10.0.0.1"] 0) = (Exc (RetryFailed errors), s') /\
    Z.of_nat (List.length errors) = n_trys (Scenario.client 3) /\
    filter (fun e => negb (is_EmptyPool e)) errors =
      map Scenario.unavailable (seq 0 (rpc_calls s' - 0)) /\
    exists evs, trace s' = (trace (Scenario.state ["10.0.0.1"] 0) ++ evs)%list /\
                errors = attempt_errors Scenario.unavailable 0 evs.
Proof.
  assert (H1 : (0 <= n_trys (Scenario.client 3))%Z) by (simpl; lia).
  assert (H2 : forall k, exists Sa,
     env_gethostbyname_ex (Scenario.env ["10.0.0.1"] (fun k => Exc (Scenario.unavailable k))) k
       (host (Scenario.client 3)) = Ok Sa) by (intros k; eexists; reflexivity).
  assert (H3 : forall k st rq,
     env_predict (Scenario.env ["10.0.0.1"] (fun k => Exc (Scenario.unavailable k))) k st rq =
     Exc (Scenario.unavailable k)) by (intros; reflexivity).
  assert (H4 : forall k, classify_sync (Scenario.unavailable k) = RetryLog) by (intros; reflexivity).
  split; [exact H1|]. split; [exact H2|]. split; [exact H3|]. split; [exact H4|].
  exact (predict_retry_budget _ _ (Scenario.state ["10.0.0.1"] 0) [] None "default" None
           Scenario.unavailable H1 H2 H3 H4).
Defined.

(** C4 (fatal short-circuit): at any attempt of the retry loop, whatever
    the remaining budget and the errors recorded so far, when the selected
    backend answers model-not-found (NOT_FOUND with "Model" in the details
    on the blocking surface, in the message on the concurrent surface) the
    loop raises that very error, unwrapped; exactly one RPC was made in
    this attempt and no further one, and no reconciliation ran. *)
Theorem model_not_found_aborts env self req tries errors s e p' :
  RR.next (_pool s) = Some (e, p') ->
  (forall details, py_in "Model" details = true ->
     env_predict env (rpc_calls s) (sync_stub (snd e)) req = Exc (RpcError NOT_FOUND details) ->
     exists s',
       retry_loop env self false classify_sync req (Datatypes.S tries) errors s =
         (Exc (RpcError NOT_FOUND details), s') /\
       rpc_calls s' = Datatypes.S (rpc_calls s) /\ resolve_calls s' = resolve_calls s) /\
  (forall message, py_in "Model" message = true ->
     env_predict env (rpc_calls s) (async_stub (snd e)) req =
       Exc (GRPCError NOT_FOUND (Some message)) ->
     exists s',
       retry_loop env self true classify_async req (Datatypes.S tries) errors s =
         (Exc (GRPCError NOT_FOUND (Some message)), s') /\
       rpc_calls s' = Datatypes.S (rpc_calls s) /\ resolve_calls s' = resolve_calls s).
Proof.
  intros Hn. split.
  - intros d Hd Hr. assert (Ha := attempt_call env false req s e p' Hn). cbv iota in Ha. rewrite Hr in Ha.
    exists (emit (EvPredict (sync_stub (snd e))) (tick_rpc (set_pool p' s))).
    split; [|split; reflexivity].
    apply (loop_step_propagate env self false classify_sync req tries errors s _ _ _ Ha).
    simpl. rewrite Hd. reflexivity.
  - intros m Hm Hr. assert (Ha := attempt_call env true req s e p' Hn). cbv iota in Ha. rewrite Hr in Ha.
    exists (emit (EvPredict (async_stub (snd e))) (tick_rpc (set_pool p' s))).
    split; [|split; reflexivity].
    apply (loop_step_propagate env self true classify_async req tries errors s _ _ _ Ha).
    simpl. rewrite Hm. reflexivity.
Qed.

Lemma model_not_found_aborts_witness :
  RR.next (_pool (Scenario.state ["10.0.0.1"] 0)) =
    Some (("10.0.0.1", mk_connection "10.0.0.1" 8500 None),
          {| RR.entries := [("10.0.0.1", mk_connection "10.0.0.1" 8500 None)]; RR.idx := 0 |}) /\
  (forall details, py_in "Model" details = true ->
     env_predict (Scenario.env ["10.0.0.1"] (fun k => Exc (RpcError NOT_FOUND "Model test_model not found")))
       0 (sync_stub (mk_connection "10.0.0.1" 8500 None)) Scenario.request = Exc (RpcError NOT_FOUND details) ->
     exists s',
       retry_loop (Scenario.env ["10.0.0.1"] (fun k => Exc (RpcError NOT_FOUND "Model test_model not found")))
         (Scenario.client 3) false classify_sync Scenario.request 3 [EmptyPool]
         (Scenario.state ["10.0.0.1"] 0) = (Exc (RpcError NOT_FOUND details), s') /\
       rpc_calls s' = 1 /\ resolve_calls s' = 0) /\
  (forall message, py_in "Model" message = true ->
     env_predict (Scenario.env ["10.0.0.1"] (fun k => Exc (RpcError NOT_FOUND "Model test_model not found")))
       0 (async_stub (mk_connection "10.0.0.1" 8500 None)) Scenario.request =
       Exc (GRPCError NOT_FOUND (Some message)) ->
     exists s',
       retry_loop (Scenario.env ["10.0.0.1"] (fun k => Exc (RpcError NOT_FOUND "Model test_model not found")))
         (Scenario.client 3) true classify_async Scenario.request 3 [EmptyPool]
         (Scenario.state ["10.0.0.1"] 0) = (Exc (GRPCError NOT_FOUND (Some message)), s') /\
       rpc_calls s' = 1 /\ resolve_calls s' = 0).
Proof.
  assert (H : RR.next (_pool (Scenario.state ["10.0.0.1"] 0)) =
    Some (("10.0.0.1", mk_connection "10.0.0.1" 8500 None),
          {| RR.entries := [("10.0.0.1", mk_connection "10.0.0.1" 8500 None)]; RR.idx := 0 |}))
    by reflexivity.
  split; [exact H|].
  exact (model_not_found_aborts _ (Scenario.client 3) Scenario.request 2 [EmptyPool] _ _ _ H).
Defined.

(** C7 (scale to zero): selection on an empty pool raises [EmptyPool]
    and leaves the state as it was; and when the resolver answers no
    address at every call, [predict] from any well-formed pool raises
    [RetryFailed] whose error list is one [EmptyPool] per attempt. *)
Theorem predict_scale_to_zero env self s data output_names model_name sig :
  RR.wf (_pool s) ->
  (forall k, env_gethostbyname_ex env k (host self) = Ok []) ->
  (forall b s0, RR.entries (_pool s0) = [] -> get_round_robin_stub b s0 = (Exc EmptyPool, s0)) /\
  exists s',
    predict env self data output_names model_name sig s =
      (Exc (RetryFailed (repeat EmptyPool (Z.to_nat (n_trys self)))), s').
Proof.
  intros Hwf Hres. split; [exact get_round_robin_stub_empty|].
  destruct (setup_run env self s [] (Hres _)) as (s1 & Hrun & _ & _ & _ & _ & Hwf1).
  destruct (Hwf1 Hwf) as [_ Hk].
  assert (E : RR.entries (_pool s1) = []).
  { destruct (RR.entries (_pool s1)) as [|[a c] l] eqn:E; [reflexivity|].
    exfalso. apply (proj1 (Hk a)). unfold RR.keys. rewrite E. left. reflexivity. }
  destruct (retry_loop_empty env self false classify_sync
              (_predict_request data model_name output_names sig) Hres eq_refl
              (Z.to_nat (n_trys self)) [] s1 E) as [s' Hl].
  exists s'. unfold predict.
  rewrite (bind_ok _ _ _ _ _ Hrun). cbv beta zeta.
  rewrite (bind_exc _ _ _ _ _ Hl). reflexivity.
Qed.

Lemma predict_scale_to_zero_witness :
  RR.wf (_pool (Scenario.state ["10.0.0.1"] 0)) /\
  (forall k, env_gethostbyname_ex (Scenario.env [] (fun _ => Scenario.ok_response)) k
               (host (Scenario.client 3)) = Ok []) /\
  (forall b s0, RR.entries (_pool s0) = [] -> get_round_robin_stub b s0 = (Exc EmptyPool, s0)) /\
  exists s',
    predict (Scenario.env [] (fun _ => Scenario.ok_response)) (Scenario.client 3)
      [] None "default" None (Scenario.state ["10.0.0.1"] 0) =
      (Exc (RetryFailed [EmptyPool; EmptyPool; EmptyPool]), s').
Proof.
  assert (H1 : RR.wf (_pool (Scenario.state ["10.0.0.1"] 0))).
  { unfold RR.wf, RR.keys. simpl. repeat constructor; simpl; tauto. }
  assert (H2 : forall k, env_gethostbyname_ex (Scenario.env [] (fun _ => Scenario.ok_response)) k
               (host (Scenario.client 3)) = Ok []) by (intros; reflexivity).
  split; [exact H1|]. split; [exact H2|].
  exact (predict_scale_to_zero _ _ _ [] None "default" None H1 H2).
Defined.

(** C8 (cancellation): at any attempt of [async_predict]'s loop, whatever
    the remaining budget and the errors recorded so far, a cancellation
    raised while awaiting the RPC leaves the loop at once as
    [CancelledError] itself: it is neither logged nor recorded nor
    wrapped, no further RPC or reconciliation follows, and the only trace
    of the attempt is its RPC call. *)
Theorem async_cancellation_propagates env self req tries errors s e p' :
  RR.next (_pool s) = Some (e, p') ->
  env_predict env (rpc_calls s) (async_stub (snd e)) req = Exc CancelledError ->
  exists s',
    retry_loop env self true classify_async req (Datatypes.S tries) errors s =
      (Exc CancelledError, s') /\
    rpc_calls s' = Datatypes.S (rpc_calls s) /\ resolve_calls s' = resolve_calls s /\
    trace s' = (trace s ++ [EvPredict (async_stub (snd e))])%list.
Proof.
  intros Hn Hr. assert (Ha := attempt_call env true req s e p' Hn). cbv iota in Ha.
  rewrite Hr in Ha.
  exists (emit (EvPredict (async_stub (snd e))) (tick_rpc (set_pool p' s))).
  split; [|split; [reflexivity|split; reflexivity]].
  apply (loop_step_propagate env self true classify_async req tries errors s _ _ _ Ha).
  reflexivity.
Qed.

Lemma async_cancellation_propagates_witness :
  RR.next (_pool (Scenario.state ["10.0.0.1"] 0)) =
    Some (("10.0.0.1", mk_connection "10.0.0.1" 8500 None),
          {| RR.entries := [("10.0.0.1", mk_connection "10.0.0.1" 8500 None)]; RR.idx := 0 |}) /\
  env_predict (Scenario.env ["10.0.0.1"] (fun _ => Exc CancelledError)) 0
    (async_stub (mk_connection "10.0.0.1" 8500 None)) Scenario.request = Exc CancelledError /\
  exists s',
    retry_loop (Scenario.env ["10.0.0.1"] (fun _ => Exc CancelledError)) (Scenario.client 3)
      true classify_async Scenario.request 3 [] (Scenario.state ["10.0.0.1"] 0) =
      (Exc CancelledError, s') /\
    rpc_calls s' = 1 /\ resolve_calls s' = 0 /\
    trace s' = [EvPredict (async_stub (mk_connection "10.0.0.1" 8500 None))].
Proof.
  assert (H1 : RR.next (_pool (Scenario.state ["10.0.0.1"] 0)) =
    Some (("10.0.0.1", mk_connection "10.0.0.1" 8500 None),
          {| RR.entries := [("10.0.0.1", mk_connection "10.0.0.1" 8500 None)]; RR.idx := 0 |}))
    by reflexivity.
  assert (H2 : env_predict (Scenario.env ["10.0.0.1"] (fun _ => Exc CancelledError)) 0
    (async_stub (mk_connection "10.0.0.1" 8500 None)) Scenario.request = Exc CancelledError)
    by reflexivity.
  split; [exact H1|]. split; [exact H2|].
  exact (async_cancellation_propagates _ (Scenario.client 3) Scenario.request 2 [] _ _ _ H1 H2).
Defined.

(** C9 fails on the concurrent surface: a [GRPCError] with status
    NOT_FOUND and no message ([e.message] is None) is not retried.  The
    test ["Model" in e.message] raises TypeError inside the [except]
    clause, which escapes [async_predict] after one RPC, unrecorded and
    unlogged.  The same status with a message lacking "Model" is retried
    and recorded, three times, as the claim says. *)
Lemma not_found_without_message_escapes :
  (let '(r, s') := async_predict (Scenario.env ["10.0.0.1"] (fun _ => Exc (GRPCError NOT_FOUND None)))
                     (Scenario.client 3) [] None "default" None (Scenario.state ["10.0.0.1"] 0) in
   r = Exc (TypeError "argument of type 'NoneType' is not iterable") /\
   rpc_calls s' = 1 /\
   trace s' = [EvResolve "serving.local";
               EvPredict (async_stub (mk_connection "10.0.0.1" 8500 None))]) /\
  (let '(r, s') := async_predict
                     (Scenario.env ["10.0.0.1"] (fun _ => Exc (GRPCError NOT_FOUND (Some "no route"))))
                     (Scenario.client 3) [] None "default" None (Scenario.state ["10.0.0.1"] 0) in
   r = Exc (RetryFailed [GRPCError NOT_FOUND (Some "no route");
                         GRPCError NOT_FOUND (Some "no route");
                         GRPCError NOT_FOUND (Some "no route")]) /\
   rpc_calls s' = 3).
Proof. vm_compute. repeat split. Qed.

(** C10 (errors discarded on a fatal error): on either surface, over a
    stable non-empty membership, when the first [j] attempts fail with
    errors the loop records and the next one (still within the budget)
    fails with a model-not-found error, the call raises that error alone:
    not a [RetryFailed], and none of the [j] recorded errors reaches the
    caller. *)
Theorem fatal_discards_recorded_errors env self s Sa (is_async : bool) j (fail : nat -> Exn) fatal
    data output_names model_name sig :
  RR.wf (_pool s) -> Sa <> [] ->
  (forall k, env_gethostbyname_ex env k (host self) = Ok Sa) ->
  j < Z.to_nat (n_trys self) ->
  (forall k, (if is_async then classify_async else classify_sync) (fail k) = RetryLog) ->
  (if is_async then classify_async else classify_sync) fatal = Propagate fatal ->
  (forall k st rq, rpc_calls s <= k < rpc_calls s + j -> env_predict env k st rq = Exc (fail k)) ->
  (forall st rq, env_predict env (rpc_calls s + j) st rq = Exc fatal) ->
  exists s',
    (if is_async then async_predict else predict) env self data output_names model_name sig s =
      (Exc fatal, s').
Proof.
  intros Hwf HSa Hres Hj Hcl Hfat Hfail Hlast.
  destruct (setup_run env self s Sa (Hres _)) as (s1 & Hrun & _ & Hrpc1 & _ & _ & Hwf1).
  destruct (Hwf1 Hwf) as [_ Hk].
  rewrite <- Hrpc1 in Hfail, Hlast.
  destruct (retry_loop_fatal_after env self is_async
              (if is_async then classify_async else classify_sync)
              (_predict_request data model_name output_names sig) Sa fail fatal
              HSa Hres Hcl Hfat j (Z.to_nat (n_trys self)) [] s1 Hj Hk Hfail Hlast) as [s' Hl].
  exists s'. destruct is_async; unfold predict, async_predict;
    rewrite (bind_ok _ _ _ _ _ Hrun); cbv beta zeta; rewrite (bind_exc _ _ _ _ _ Hl); reflexivity.
Qed.

Lemma fatal_discards_recorded_errors_witness :
  RR.wf (_pool (Scenario.state ["10.0.0.2"] 0)) /\
  ["10.0.0.1"; "10.0.0.2"] <> [] /\
  (forall k, env_gethostbyname_ex
               (Scenario.env ["10.0.0.1"; "10.0.0.2"]
                  (fun k => if Nat.ltb k 2 then Exc (Scenario.unavailable k)
                            else Exc (RpcError NOT_FOUND "Model test_model not found")))
               k (host (Scenario.client 3)) = Ok ["10.0.0.1"; "10.0.0.2"]) /\
  2 < Z.to_nat (n_trys (Scenario.client 3)) /\
  (forall k, classify_sync (Scenario.unavailable k) = RetryLog) /\
  classify_sync (RpcError NOT_FOUND "Model test_model not found") =
    Propagate (RpcError NOT_FOUND "Model test_model not found") /\
  (forall k st rq, 0 <= k < 0 + 2 ->
     env_predict (Scenario.env ["10.0.0.1"; "10.0.0.2"]
                    (fun k => if Nat.ltb k 2 then Exc (Scenario.unavailable k)
                              else Exc (RpcError NOT_FOUND "Model test_model not found")))
       k st rq = Exc (Scenario.unavailable k)) /\
  (forall st rq,
     env_predict (Scenario.env ["10.0.0.1"; "10.0.0.2"]
                    (fun k => if Nat.ltb k 2 then Exc (Scenario.unavailable k)
                              else Exc (RpcError NOT_FOUND "Model test_model not found")))
       (0 + 2) st rq = Exc (RpcError NOT_FOUND "Model test_model not found")) /\
  exists s',
    predict (Scenario.env ["10.0.0.1"; "10.0.0.2"]
               (fun k => if Nat.ltb k 2 then Exc (Scenario.unavailable k)
                         else Exc (RpcError NOT_FOUND "Model test_model not found")))
      (Scenario.client 3) [] None "default" None (Scenario.state ["10.0.0.2"] 0) =
      (Exc (RpcError NOT_FOUND "Model test_model not found"), s').
Proof.
  assert (H1 : RR.wf (_pool (Scenario.state ["10.0.0.2"] 0))).
  { unfold RR.wf, RR.keys. simpl. repeat constructor; simpl; tauto. }
  assert (H2 : ["10.0.0.1"; "10.0.0.2"] <> []) by discriminate.
  assert (H3 : forall k, env_gethostbyname_ex
               (Scenario.env ["10.0.0.1"; "10.0.0.2"]
                  (fun k => if Nat.ltb k 2 then Exc (Scenario.unavailable k)
                            else Exc (RpcError NOT_FOUND "Model test_model not found")))
               k (host (Scenario.client 3)) = Ok ["10.0.0.1"; "10.0.0.2"]) by reflexivity.
  assert (H4 : 2 < Z.to_nat (n_trys (Scenario.client 3))) by (simpl; lia).
  assert (H5 : forall k, classify_sync (Scenario.unavailable k) = RetryLog) by reflexivity.
  assert (H6 : classify_sync (RpcError NOT_FOUND "Model test_model not found") =
    Propagate (RpcError NOT_FOUND "Model test_model not found")) by reflexivity.
  assert (H7 : forall k st rq, 0 <= k < 0 + 2 ->
     env_predict (Scenario.env ["10.0.0.1"; "10.0.0.2"]
                    (fun k => if Nat.ltb k 2 then Exc (Scenario.unavailable k)
                              else Exc (RpcError NOT_FOUND "Model test_model not found")))
       k st rq = Exc (Scenario.unavailable k)).
  { intros k st rq Hk. simpl. destruct (Nat.ltb_spec k 2); [reflexivity|lia]. }
  assert (H8 : forall st rq,
     env_predict (Scenario.env ["10.0.0.1"; "10.0.0.2"]
                    (fun k => if Nat.ltb k 2 then Exc (Scenario.unavailable k)
                              else Exc (RpcError NOT_FOUND "Model test_model not found")))
       (0 + 2) st rq = Exc (RpcError NOT_FOUND "Model test_model not found")) by reflexivity.
  do 8 (split; [assumption|]).
  exact (fatal_discards_recorded_errors _ (Scenario.client 3) (Scenario.state ["10.0.0.2"] 0)
           _ false 2 Scenario.unavailable _ [] None "default" None H1 H2 H3 H4 H5 H6 H7 H8).
Defined.

(* ================================================================== *)
(** * Further properties of the client *)

(* ------------------------------------------------------------------ *)
(** ** Splitting and joining strings *)

Module Render.

Lemma las_app a b :
  list_ascii_of_string (a ++ b) = (list_ascii_of_string a ++ list_ascii_of_string b)%list.
Proof. induction a as [|x a IH]; simpl; [reflexivity|]. rewrite IH. reflexivity. Qed.

Lemma str_app_assoc a b c : (a ++ b) ++ c = a ++ (b ++ c).
Proof. induction a as [|x a IH]; simpl; [reflexivity|]. rewrite IH. reflexivity. Qed.

Lemma split_cons c s : exists p ps, py_split c s = p :: ps.
Proof.
  induction s as [|x s [p [ps IH]]]; simpl.
  - eexists; eexists; reflexivity.
  - destruct (Ascii.eqb x c); [eexists; eexists; reflexivity|].
    rewrite IH. eexists; eexists; reflexivity.
Qed.

Lemma split_app_sep c a b : py_split c (a ++ String c b) = (py_split c a ++ py_split c b)%list.
Proof.
  induction a as [|x a IH]; simpl.
  - rewrite Ascii.eqb_refl. reflexivity.
  - destruct (Ascii.eqb x c); [rewrite IH; reflexivity|].
    rewrite IH. destruct (split_cons c a) as [p [ps ->]]. reflexivity.
Qed.

Lemma split_prefix c a b :
  ~ In c (list_ascii_of_string a) ->
  py_split c (a ++ b) = match py_split c b with p :: ps => (a ++ p) :: ps | [] => [] end.
Proof.
  induction a as [|x a IH]; simpl; intros Hn.
  - destruct (py_split c b); reflexivity.
  - destruct (Ascii.eqb_spec x c) as [->|_]; [exfalso; tauto|].
    rewrite IH by tauto. destruct (split_cons c b) as [p [ps ->]]. reflexivity.
Qed.

Lemma split_noc c s : ~ In c (list_ascii_of_string s) -> py_split c s = [s].
Proof.
  induction s as [|x s IH]; simpl; intros Hn; [reflexivity|].
  destruct (Ascii.eqb_spec x c) as [->|_]; [exfalso; tauto|].
  rewrite IH by tauto. reflexivity.
Qed.

Lemma split_pieces_noc c s :
  Forall (fun p => ~ In c (list_ascii_of_string p)) (py_split c s).
Proof.
  induction s as [|x s IH]; simpl.
  - constructor; [simpl; tauto|constructor].
  - destruct (Ascii.eqb_spec x c) as [->|Hx].
    + constructor; [simpl; tauto|exact IH].
    + destruct (py_split c s) as [|p ps]; constructor.
      * simpl. intros [E|E]; [congruence|contradiction].
      * constructor.
      * inversion IH; subst. simpl. intros [E|E]; [congruence|contradiction].
      * inversion IH; subst. assumption.
Qed.

Lemma split_concat c ls :
  ls <> [] -> py_split c (String.concat (String c EmptyString) ls) = flat_map (py_split c) ls.
Proof.
  induction ls as [|l ls IH]; intros Hne; [contradiction|].
  destruct ls as [|l' ls'].
  - simpl. rewrite app_nil_r. reflexivity.
  - change (String.concat (String c EmptyString) (l :: l' :: ls'))
      with (l ++ String c (String.concat (String c EmptyString) (l' :: ls'))).
    rewrite split_app_sep, IH by discriminate. reflexivity.
Qed.

Lemma uint_noc u : ~ In nl_char (list_ascii_of_string (uint_to_string u)).
Proof.
  induction u; simpl; try tauto; intros [E|E]; try discriminate; contradiction.
Qed.

Lemma py_str_nat_noc n : ~ In nl_char (list_ascii_of_string (py_str_nat n)).
Proof. apply uint_noc. Qed.

Lemma py_str_Z_noc z : ~ In nl_char (list_ascii_of_string (py_str_Z z)).
Proof.
  unfold py_str_Z. destruct (Z.to_int z); [apply uint_noc|].
  simpl. intros [E|E]; [discriminate|]. exact (uint_noc _ E).
Qed.

Lemma header_noc n : ~ In nl_char (list_ascii_of_string (RetryFailed_repr n)).
Proof.
  unfold RetryFailed_repr, retry_failed_message. rewrite !las_app, !in_app_iff.
  pose proof (py_str_Z_noc n). simpl. intuition discriminate.
Qed.

Lemma tab_noc : ~ In nl_char (list_ascii_of_string tab).
Proof. simpl. intros [E|E]; [discriminate|exact E]. Qed.

(** A repr's lines joined with ["\t\n"] split back into [tab_after]. *)
Lemma split_tab_join L :
  L <> [] -> Forall (fun p => ~ In nl_char (list_ascii_of_string p)) L ->
  py_split nl_char (py_join (tab ++ nl) L) = tab_after L.
Proof.
  unfold py_join. induction L as [|l L IH]; intros Hne Hf; [contradiction|].
  inversion Hf as [|? ? Hl HL]; subst.
  destruct L as [|l' L'].
  - simpl. apply split_noc. exact Hl.
  - change (String.concat (tab ++ nl) (l :: l' :: L'))
      with (l ++ (tab ++ nl) ++ String.concat (tab ++ nl) (l' :: L')).
    replace (l ++ (tab ++ nl) ++ String.concat (tab ++ nl) (l' :: L'))
      with ((l ++ tab) ++ String nl_char (String.concat (tab ++ nl) (l' :: L')))
      by (rewrite str_app_assoc; reflexivity).
    rewrite split_app_sep, IH by (try discriminate; exact HL).
    rewrite split_noc.
    + reflexivity.
    + rewrite las_app, in_app_iff. pose proof tab_noc. tauto.
Qed.

Lemma tab_after_cons L : L <> [] -> exists p ps, tab_after L = p :: ps.
Proof.
  destruct L as [|l [|l' L']]; intros H; [contradiction| |]; eexists; eexists; reflexivity.
Qed.

Lemma split_rendered s :
  py_split nl_char (tab ++ py_join (tab ++ nl) (py_split nl_char s)) =
  rendered_lines (py_split nl_char s).
Proof.
  rewrite split_prefix by exact tab_noc.
  destruct (split_cons nl_char s) as [p [ps Hs]].
  rewrite split_tab_join; [| rewrite Hs; discriminate | apply split_pieces_noc].
  unfold rendered_lines. rewrite Hs.
  destruct (tab_after_cons (p :: ps)) as [q [qs ->]]; [discriminate|]. reflexivity.
Qed.

Lemma split_error_msgs py_repr i errors :
  flat_map (py_split nl_char) (error_msgs py_repr i errors) = errors_lines py_repr i errors.
Proof.
  revert i. induction errors as [|e es IH]; intros i; [reflexivity|].
  cbn [error_msgs errors_lines flat_map]. rewrite split_noc.
  - rewrite split_rendered, IH. reflexivity.
  - rewrite las_app, in_app_iff. pose proof (py_str_nat_noc i). simpl. intuition discriminate.
Qed.

End Render.

(** X1: [str(RetryFailed(...))], split into lines, is the exception's repr
    followed by, for each recorded error in order, a line ["Error i"]
    (numbered from 1) and the lines of [repr(e)]: the first with a leading
    tab and every one but the last with a trailing tab, so continuation
    lines of a multi-line repr are not indented.  With no recorded error
    the text ends in a newline (an empty last line). *)
Theorem RetryFailed_str_lines py_repr n errors :
  py_split nl_char (RetryFailed_str py_repr n errors) =
  RetryFailed_repr n ::
    match errors with
    | [] => [EmptyString]
    | _ => errors_lines py_repr 1 errors
    end.
Proof.
  unfold RetryFailed_str.
  change (RetryFailed_repr n ++ nl ++ py_join nl (error_msgs py_repr 1 errors))
    with (RetryFailed_repr n ++ String nl_char (py_join nl (error_msgs py_repr 1 errors))).
  rewrite Render.split_app_sep, Render.split_noc by apply Render.header_noc.
  simpl. f_equal. destruct errors as [|e es]; [reflexivity|].
  unfold py_join. rewrite Render.split_concat by discriminate.
  apply Render.split_error_msgs.
Qed.

(* ------------------------------------------------------------------ *)
(** ** Reconciliation in detail *)

Section ReconcileFacts.

Variable env : Env.
Variable self : Client.

Lemma del_entries_keep a l k c :
  In (k, c) l -> k <> a -> In (k, c) (RR.del_entries a l).
Proof.
  induction l as [|[k' c'] l IH]; simpl; [tauto|].
  destruct (String.eqb_spec k' a) as [->|Hne]; intros [E|Hin] Hk.
  - inversion E; subst. contradiction.
  - exact Hin.
  - left. exact E.
  - right. apply IH; assumption.
Qed.

Lemma del_entries_subset a l x : In x (RR.del_entries a l) -> In x l.
Proof.
  induction l as [|[k c] l IH]; simpl; [tauto|].
  destruct (String.eqb k a); simpl; intuition.
Qed.

Lemma fold_delitem_keep xs p k c :
  In (k, c) (RR.entries p) -> ~ In k xs ->
  In (k, c) (RR.entries (fold_left (fun q a => RR.delitem a q) xs p)).
Proof.
  revert p. induction xs as [|a xs IH]; simpl; intros p Hin Hn; [exact Hin|].
  apply IH; [|tauto]. rewrite RRFacts.delitem_entries.
  apply del_entries_keep; [exact Hin|]. intros ->. tauto.
Qed.

Lemma fold_delitem_subset xs p x :
  In x (RR.entries (fold_left (fun q a => RR.delitem a q) xs p)) -> In x (RR.entries p).
Proof.
  revert p. induction xs as [|a xs IH]; simpl; intros p Hx; [exact Hx|].
  apply IH in Hx. rewrite RRFacts.delitem_entries in Hx.
  eapply del_entries_subset. exact Hx.
Qed.

Lemma for_insert_exact l s :
  NoDup l -> (forall x, In x l -> ~ In x (RR.keys (_pool s))) ->
  for_ l (fun address =>
            c <- Connection_new address (port self) (pem self) ;;
            pool_setitem address c) s =
  (Ok tt, {| _pool := {| RR.entries := RR.entries (_pool s) ++
                            map (fun a => (a, mk_connection a (port self) (pem self))) l;
                         RR.idx := RR.idx (_pool s) |};
             open_channels := open_channels s ++
               flat_map (fun a => [sync_channel (mk_connection a (port self) (pem self));
                                   async_channel (mk_connection a (port self) (pem self))]) l;
             resolve_calls := resolve_calls s; rpc_calls := rpc_calls s;
             trace := trace s |}).
Proof.
  revert s. induction l as [|a l IH]; intros s Hnd Hfr.
  - simpl. rewrite !app_nil_r. destruct s as [[e i] o r c t]; reflexivity.
  - inversion Hnd as [|? ? Ha Hl]; subst.
    set (c := mk_connection a (port self) (pem self)).
    set (s2 := set_pool {| RR.entries := RR.entries (_pool s) ++ [(a, c)];
                           RR.idx := RR.idx (_pool s) |}
                 (set_open (open_channels s ++ [sync_channel c; async_channel c]) s)).
    cbn [for_]. rewrite (bind_ok _ _ s tt s2).
    2:{ unfold Connection_new, modify, ret, bind, pool_setitem. simpl.
        rewrite RRFacts.setitem_fresh by (apply Hfr; left; reflexivity). reflexivity. }
    rewrite (IH s2 Hl).
    + unfold s2. simpl. rewrite <- !app_assoc. reflexivity.
    + intros x Hx. unfold s2, set_pool, RR.keys; simpl. rewrite map_app. simpl.
      rewrite in_app_iff. intros [Hin|[<-|[]]]; [|contradiction].
      apply (Hfr x); [right; exact Hx|exact Hin].
Qed.

Lemma set_diff_nil l : set_diff l [] = l.
Proof. unfold set_diff. induction l as [|x l IH]; [reflexivity|]. simpl. f_equal. exact IH. Qed.

Lemma setup_exc s e :
  env_gethostbyname_ex env (resolve_calls s) (host self) = Exc e ->
  _setup_connections env self s = (Exc e, emit (EvResolve (host self)) (tick_resolve s)).
Proof.
  intros H. unfold _setup_connections.
  apply (bind_exc _ _ s e). unfold gethostbyname_ex. rewrite H. reflexivity.
Qed.

(** [_setup_connections] in full when the resolver answers [Sa]: the
    addresses it adds, the entries it keeps and the channels it opens. *)
Lemma setup_exact s Sa :
  env_gethostbyname_ex env (resolve_calls s) (host self) = Ok Sa ->
  exists s' new,
    _setup_connections env self s = (Ok tt, s') /\
    NoDup new /\ (forall a, In a new <-> In a Sa /\ ~ In a (RR.keys (_pool s))) /\
    (forall a c, In (a, c) (RR.entries (_pool s)) -> In a Sa ->
                 In (a, c) (RR.entries (_pool s'))) /\
    (exists kept,
       (forall x, In x kept -> In x (RR.entries (_pool s))) /\
       RR.entries (_pool s') =
         (kept ++ map (fun a => (a, mk_connection a (port self) (pem self))) new)%list) /\
    open_channels s' =
      (open_channels s ++
       flat_map (fun a => [sync_channel (mk_connection a (port self) (pem self));
                           async_channel (mk_connection a (port self) (pem self))]) new)%list /\
    resolve_calls s' = Datatypes.S (resolve_calls s) /\ rpc_calls s' = rpc_calls s.
Proof.
  intros HS.
  set (s1 := emit (EvResolve (host self)) (tick_resolve s)).
  set (K := RR.keys (_pool s)).
  unfold _setup_connections.
  rewrite (bind_ok _ _ s Sa s1) by (unfold gethostbyname_ex; rewrite HS; reflexivity).
  cbv beta zeta.
  rewrite (bind_ok _ _ s1 K s1) by reflexivity.
  cbv beta zeta.
  destruct (set_eqb (py_set K) (py_set Sa)) eqn:Eq.
  - pose proof (proj1 (set_eqb_spec _ _) Eq) as Eqs. clear Eq.
    exists s1, []. split; [reflexivity|]. split; [constructor|].
    split.
    { intros a. simpl. split; [tauto|]. intros [Ha Hn]. apply Hn.
      apply (py_set_In a K), Eqs, py_set_In. exact Ha. }
    split; [intros a c Hin _; exact Hin|].
    split; [exists (RR.entries (_pool s)); split; [tauto|]; simpl; rewrite app_nil_r; reflexivity|].
    simpl. rewrite app_nil_r. repeat split; reflexivity.
  - set (missing := set_diff (py_set K) (py_set Sa)).
    set (s2 := set_pool (fold_left (fun q a => RR.delitem a q) missing (_pool s1)) s1).
    rewrite (bind_ok _ _ s1 tt s2) by (apply for_pool_delitem).
    set (new := set_diff (py_set Sa) (py_set K)).
    assert (Hnew : forall x, In x new <-> In x Sa /\ ~ In x K).
    { intros x. unfold new. rewrite set_diff_In, !py_set_In. tauto. }
    assert (Hmis : forall x, In x missing <-> In x K /\ ~ In x Sa).
    { intros x. unfold missing. rewrite set_diff_In, !py_set_In. tauto. }
    rewrite for_insert_exact.
    2:{ apply set_diff_NoDup, NoDup_nodup. }
    2:{ intros x Hx Hin. apply RRFacts.fold_delitem_sub in Hin. apply Hnew in Hx. tauto. }
    eexists. exists new. split; [reflexivity|].
    split; [apply set_diff_NoDup, NoDup_nodup|]. split; [exact Hnew|].
    change (_pool s1) with (_pool s) in *. simpl.
    split.
    { intros a c Hin Ha. apply in_or_app. left. apply fold_delitem_keep; [exact Hin|].
      intros Hm. apply Hmis in Hm. tauto. }
    split.
    { eexists. split; [|reflexivity]. apply fold_delitem_subset. }
    repeat split; reflexivity.
Qed.

End ReconcileFacts.

(** X2: [Client.__init__] when the resolver answers [Sa]: the pool holds
    one connection per distinct address of [Sa], each built with the
    client's port and pem, the cursor at the start; two transport handles
    (blocking and concurrent) are opened per distinct address and nothing
    else; one resolver call, no RPC.  The order of the entries is the
    iteration order of the Python set, so it is stated up to permutation. *)
Theorem Client_init_connects env self s Sa :
  env_gethostbyname_ex env (resolve_calls s) (host self) = Ok Sa ->
  exists s' extra,
    Client_init env self s = (Ok tt, s') /\
    RR.wf (_pool s') /\
    Permutation (RR.entries (_pool s'))
                (map (fun a => (a, mk_connection a (port self) (pem self))) (py_set Sa)) /\
    RR.idx (_pool s') = 0 /\
    open_channels s' = (open_channels s ++ extra)%list /\
    Permutation extra
      (flat_map (fun a => [sync_channel (mk_connection a (port self) (pem self));
                           async_channel (mk_connection a (port self) (pem self))]) (py_set Sa)) /\
    resolve_calls s' = Datatypes.S (resolve_calls s) /\ rpc_calls s' = rpc_calls s.
Proof.
  intros HS.
  set (s0 := set_pool RR.empty s).
  assert (Hinit : Client_init env self s = _setup_connections env self s0).
  { unfold Client_init. rewrite (bind_ok _ _ s tt s0) by reflexivity. reflexivity. }
  rewrite Hinit.
  destruct (setup_exact env self s0 Sa HS)
    as (s' & new & Hrun & Hnd & Hnew & _ & (kept & Hkept & Hent) & Hopen & Hres & Hrpc).
  assert (Hk : kept = []).
  { destruct kept as [|x kept]; [reflexivity|]. destruct (Hkept x (or_introl eq_refl)). }
  subst kept.
  assert (Hperm : Permutation new (py_set Sa)).
  { apply NoDup_Permutation; [exact Hnd|apply NoDup_nodup|].
    intros x. rewrite Hnew, py_set_In. simpl. tauto. }
  assert (Hidx : RR.idx (_pool s') = 0).
  { revert Hrun. unfold _setup_connections.
    rewrite (bind_ok _ _ s0 Sa (emit (EvResolve (host self)) (tick_resolve s0)))
      by (unfold gethostbyname_ex; change (resolve_calls s0) with (resolve_calls s);
          rewrite HS; reflexivity).
    cbv beta zeta.
    rewrite (bind_ok _ _ _ [] (emit (EvResolve (host self)) (tick_resolve s0))) by reflexivity.
    cbv beta zeta. destruct (set_eqb _ _).
    - intros H. inversion H; subst. reflexivity.
    - rewrite (bind_ok _ _ _ tt _ (for_pool_delitem _ _)).
      rewrite set_diff_nil. simpl (fold_left _ _ _).
      rewrite for_insert_exact.
      + intros H. inversion H; subst. reflexivity.
      + apply NoDup_nodup.
      + intros x _. simpl. tauto. }
  exists s', (flat_map (fun a => [sync_channel (mk_connection a (port self) (pem self));
                                  async_channel (mk_connection a (port self) (pem self))]) new).
  split; [exact Hrun|].
  assert (HP : Permutation (RR.entries (_pool s'))
                 (map (fun a => (a, mk_connection a (port self) (pem self))) (py_set Sa))).
  { rewrite Hent. simpl. apply Permutation_map. exact Hperm. }
  split.
  { unfold RR.wf, RR.keys. eapply Permutation_NoDup.
    - apply Permutation_map, Permutation_sym, HP.
    - rewrite map_fst_pairs. apply NoDup_nodup. }
  split; [exact HP|]. split; [exact Hidx|].
  split; [exact Hopen|].
  split; [apply Permutation_flat_map; exact Hperm|].
  split; [exact Hres|exact Hrpc].
Qed.

Lemma Client_init_connects_witness :
  env_gethostbyname_ex (Scenario.env ["10.0.0.1"; "10.0.0.2"; "10.0.0.1"]
                          (fun _ => Scenario.ok_response))
    (resolve_calls (Scenario.state [] 0)) (host (Scenario.client 3)) =
    Ok ["10.0.0.1"; "10.0.0.2"; "10.0.0.1"] /\
  exists s' extra,
    Client_init (Scenario.env ["10.0.0.1"; "10.0.0.2"; "10.0.0.1"] (fun _ => Scenario.ok_response))
      (Scenario.client 3) (Scenario.state [] 0) = (Ok tt, s') /\
    RR.wf (_pool s') /\
    Permutation (RR.entries (_pool s'))
      (map (fun a => (a, mk_connection a 8500 None)) (py_set ["10.0.0.1"; "10.0.0.2"; "10.0.0.1"])) /\
    RR.idx (_pool s') = 0 /\
    open_channels s' = (open_channels (Scenario.state [] 0) ++ extra)%list /\
    Permutation extra
      (flat_map (fun a => [sync_channel (mk_connection a 8500 None);
                           async_channel (mk_connection a 8500 None)])
         (py_set ["10.0.0.1"; "10.0.0.2"; "10.0.0.1"])) /\
    resolve_calls s' = 1 /\ rpc_calls s' = 0.
Proof.
  split; [reflexivity|].
  exact (Client_init_connects
           (Scenario.env ["10.0.0.1"; "10.0.0.2"; "10.0.0.1"] (fun _ => Scenario.ok_response))
           (Scenario.client 3) (Scenario.state [] 0) _ eq_refl).
Defined.

(** X3: when the resolver raises (for instance [socket.gaierror]),
    [_setup_connections] raises that exception after the single resolver
    call, with the pool and the open channels untouched; [predict],
    [async_predict] and [Client.__init__] raise the same exception, not
    [RetryFailed], without sending any RPC. *)
Theorem resolver_failure_propagates env self s e data output_names model_name sig :
  env_gethostbyname_ex env (resolve_calls s) (host self) = Exc e ->
  _setup_connections env self s = (Exc e, emit (EvResolve (host self)) (tick_resolve s)) /\
  predict env self data output_names model_name sig s =
    (Exc e, emit (EvResolve (host self)) (tick_resolve s)) /\
  async_predict env self data output_names model_name sig s =
    (Exc e, emit (EvResolve (host self)) (tick_resolve s)) /\
  Client_init env self s =
    (Exc e, emit (EvResolve (host self)) (tick_resolve (set_pool RR.empty s))).
Proof.
  intros H. pose proof (setup_exc env self s e H) as Hs.
  split; [exact Hs|].
  split; [unfold predict; apply (bind_exc _ _ _ _ _ Hs)|].
  split; [unfold async_predict; apply (bind_exc _ _ _ _ _ Hs)|].
  unfold Client_init. rewrite (bind_ok _ _ s tt (set_pool RR.empty s)) by reflexivity.
  apply setup_exc. exact H.
Qed.

Lemma resolver_failure_propagates_witness :
  env_gethostbyname_ex {| env_gethostbyname_ex := fun _ _ => Exc (Gaierror "serving.local");
                          env_predict := fun _ _ _ => Scenario.ok_response;
                          env_list_models := fun _ _ => Ok [] |}
    (resolve_calls (Scenario.state ["10.0.0.1"] 0)) (host (Scenario.client 3)) =
    Exc (Gaierror "serving.local") /\
  predict {| env_gethostbyname_ex := fun _ _ => Exc (Gaierror "serving.local");
             env_predict := fun _ _ _ => Scenario.ok_response;
             env_list_models := fun _ _ => Ok [] |}
    (Scenario.client 3) [] None "default" None (Scenario.state ["10.0.0.1"] 0) =
    (Exc (Gaierror "serving.local"),
     emit (EvResolve "serving.local") (tick_resolve (Scenario.state ["10.0.0.1"] 0))).
Proof.
  split; [reflexivity|].
  exact (proj1 (proj2 (resolver_failure_propagates
           {| env_gethostbyname_ex := fun _ _ => Exc (Gaierror "serving.local");
              env_predict := fun _ _ _ => Scenario.ok_response;
              env_list_models := fun _ _ => Ok [] |}
           (Scenario.client 3) (Scenario.state ["10.0.0.1"] 0) _ [] None "default" None
           eq_refl))).
Defined.

(** X4: reconciliation keeps the [Connection] object of every address
    that is still resolved (no reconnect); every other entry of the new
    pool is a fresh connection of an address that was not pooled before;
    and it opens exactly two transport handles (blocking and concurrent)
    per such new address, none for the others. *)
Theorem setup_connections_reuses_surviving env self s Sa :
  env_gethostbyname_ex env (resolve_calls s) (host self) = Ok Sa ->
  exists s' new,
    _setup_connections env self s = (Ok tt, s') /\
    NoDup new /\ (forall a, In a new <-> In a Sa /\ ~ In a (RR.keys (_pool s))) /\
    (forall a c, In (a, c) (RR.entries (_pool s)) -> In a Sa ->
                 In (a, c) (RR.entries (_pool s'))) /\
    (forall a c, In (a, c) (RR.entries (_pool s')) ->
                 In (a, c) (RR.entries (_pool s)) \/
                 (In a new /\ c = mk_connection a (port self) (pem self))) /\
    open_channels s' =
      (open_channels s ++
       flat_map (fun a => [sync_channel (mk_connection a (port self) (pem self));
                           async_channel (mk_connection a (port self) (pem self))]) new)%list.
Proof.
  intros HS.
  destruct (setup_exact env self s Sa HS)
    as (s' & new & Hrun & Hnd & Hnew & Hkeep & (kept & Hkept & Hent) & Hopen & _).
  exists s', new. split; [exact Hrun|]. split; [exact Hnd|]. split; [exact Hnew|].
  split; [exact Hkeep|]. split; [|exact Hopen].
  intros a c Hin. rewrite Hent, in_app_iff in Hin. destruct Hin as [Hin|Hin].
  - left. apply Hkept. exact Hin.
  - right. apply in_map_iff in Hin. destruct Hin as [a' [E Ha']].
    inversion E; subst. split; [exact Ha'|reflexivity].
Qed.

Lemma setup_connections_reuses_surviving_witness :
  env_gethostbyname_ex (Scenario.env ["10.0.0.2"; "10.0.0.3"] (fun _ => Scenario.ok_response))
    (resolve_calls (Scenario.state ["10.0.0.1"; "10.0.0.2"] 0)) (host (Scenario.client 3)) =
    Ok ["10.0.0.2"; "10.0.0.3"] /\
  exists s' new,
    _setup_connections (Scenario.env ["10.0.0.2"; "10.0.0.3"] (fun _ => Scenario.ok_response))
      (Scenario.client 3) (Scenario.state ["10.0.0.1"; "10.0.0.2"] 0) = (Ok tt, s') /\
    NoDup new /\
    (forall a, In a new <-> In a ["10.0.0.2"; "10.0.0.3"] /\
                            ~ In a (RR.keys (_pool (Scenario.state ["10.0.0.1"; "10.0.0.2"] 0)))) /\
    (forall a c, In (a, c) (RR.entries (_pool (Scenario.state ["10.0.0.1"; "10.0.0.2"] 0))) ->
                 In a ["10.0.0.2"; "10.0.0.3"] -> In (a, c) (RR.entries (_pool s'))) /\
    (forall a c, In (a, c) (RR.entries (_pool s')) ->
                 In (a, c) (RR.entries (_pool (Scenario.state ["10.0.0.1"; "10.0.0.2"] 0))) \/
                 (In a new /\ c = mk_connection a 8500 None)) /\
    open_channels s' =
      (open_channels (Scenario.state ["10.0.0.1"; "10.0.0.2"] 0) ++
       flat_map (fun a => [sync_channel (mk_connection a 8500 None);
                           async_channel (mk_connection a 8500 None)]) new)%list.
Proof.
  split; [reflexivity|].
  exact (setup_connections_reuses_surviving
           (Scenario.env ["10.0.0.2"; "10.0.0.3"] (fun _ => Scenario.ok_response))
           (Scenario.client 3) (Scenario.state ["10.0.0.1"; "10.0.0.2"] 0) _ eq_refl).
Defined.

Lemma next_In p e p' : RR.next p = Some (e, p') -> In e (RR.entries p).
Proof.
  unfold RR.next. destruct (nth_error _ _) eqn:En; intros H; [|discriminate].
  inversion H; subst. eapply nth_error_In. exact En.
Qed.

Lemma next_None_empty p : RR.next p = None -> RR.entries p = [].
Proof.
  intros H. destruct (RR.entries p) eqn:E; [reflexivity|].
  destruct (next_nonempty p) as (e & p' & H'); [rewrite E; discriminate|congruence].
Qed.

Section Consistency.

Variable env : Env.
Variable self : Client.

Let PC (s : State) : Prop := pool_consistent self (_pool s).

Lemma pc_same_pool {A} (m : M A) :
  (forall s, _pool (snd (m s)) = _pool s) -> forall s, PC s -> PC (snd (m s)).
Proof. intros H s Hs. unfold PC. rewrite H. exact Hs. Qed.

Lemma pc_delitem a s : PC s -> PC (snd (pool_delitem a s)).
Proof.
  intros Hs a' c Hin.
  change (In (a', c) (RR.entries (RR.delitem a (_pool s)))) in Hin.
  rewrite RRFacts.delitem_entries in Hin. apply Hs. eapply del_entries_subset. exact Hin.
Qed.

Lemma pc_insert a s :
  PC s -> PC (snd ((c <- Connection_new a (port self) (pem self) ;; pool_setitem a c) s)).
Proof.
  intros Hs a' c' Hin.
  revert Hin. unfold bind, Connection_new, modify, ret, pool_setitem, RR.setitem. simpl.
  destruct (RR.contains a (_pool s)); simpl; intros Hin.
  - apply Hs. exact Hin.
  - rewrite in_app_iff in Hin. destruct Hin as [Hin|[Ee|[]]]; [apply Hs; exact Hin|].
    inversion Ee; subst. reflexivity.
Qed.

Lemma pc_setup s : PC s -> PC (snd (_setup_connections env self s)).
Proof.
  unfold _setup_connections. apply inv_bind; [apply pc_same_pool; reflexivity|intros current].
  apply inv_bind; [apply pc_same_pool; reflexivity|intros ks]. cbv zeta.
  destruct (set_eqb _ _); [intros s' H; exact H|].
  apply inv_bind; [apply inv_for; intros x; apply pc_delitem|intros _].
  apply inv_for. intros a. apply pc_insert.
Qed.

Lemma pc_pool_next s : PC s -> PC (snd (pool_next s)).
Proof.
  intros Hs. unfold pool_next. destruct (RR.next (_pool s)) as [[e p]|] eqn:E; [|exact Hs].
  intros a c Hin. apply Hs. simpl in Hin. rewrite (next_keeps_entries _ _ _ E) in Hin. exact Hin.
Qed.

Lemma pc_get_round_robin_stub b s : PC s -> PC (snd (get_round_robin_stub b s)).
Proof.
  unfold get_round_robin_stub. apply inv_bind; [apply pc_pool_next|].
  intros [[a c]|] s' H; exact H.
Qed.

Lemma pc_list_models s : PC s -> PC (snd (list_models env s)).
Proof.
  unfold list_models. apply inv_bind; [apply pc_pool_next|].
  intros [[a c]|]; [apply pc_same_pool; reflexivity|intros s' H; exact H].
Qed.

Lemma pc_retry_loop b cl req :
  forall tries errors s, PC s -> PC (snd (retry_loop env self b cl req tries errors s)).
Proof.
  induction tries as [|t IH]; intros errors; cbn [retry_loop]; [intros s H; exact H|].
  apply inv_bind.
  - apply inv_try, inv_bind; [apply pc_get_round_robin_stub|].
    intros st. apply pc_same_pool. reflexivity.
  - intros [r|e]; [intros s H; exact H|].
    destruct (cl e); [intros s H; exact H| |];
      (apply inv_bind; [apply pc_same_pool; reflexivity|intros _]);
      (apply inv_bind; [apply pc_setup|intros _]); apply IH.
Qed.

End Consistency.

(** X5: every pooled [Connection] is the one built for its own address
    with the client's port and pem.  [Client.__init__] establishes this,
    and [_setup_connections], [get_round_robin_stub], [list_models],
    [predict] and [async_predict] keep it, whatever the resolver and the
    RPCs answer and whether they return or raise. *)
Theorem operations_keep_pool_consistent env self :
  (forall s, pool_consistent self (_pool (snd (Client_init env self s)))) /\
  preserves_pool_consistent self (_setup_connections env self) /\
  (forall b, preserves_pool_consistent self (get_round_robin_stub b)) /\
  preserves_pool_consistent self (list_models env) /\
  (forall data output_names model_name sig,
     preserves_pool_consistent self (predict env self data output_names model_name sig) /\
     preserves_pool_consistent self (async_predict env self data output_names model_name sig)).
Proof.
  split.
  { intros s. unfold Client_init.
    rewrite (bind_ok _ _ s tt (set_pool RR.empty s)) by reflexivity.
    apply pc_setup. intros a c []. }
  split; [exact (pc_setup env self)|].
  split; [intros b; exact (pc_get_round_robin_stub self b)|].
  split; [exact (pc_list_models env self)|].
  intros data output_names model_name sig. unfold preserves_pool_consistent, predict, async_predict.
  split;
    (apply (inv_bind (fun s => pool_consistent self (_pool s))); [apply pc_setup|intros _]; cbv zeta;
     apply (inv_bind (fun s => pool_consistent self (_pool s))); [apply pc_retry_loop|intros r s' H; exact H]).
Qed.

(** X6: on a pool of consistent connections, [get_round_robin_stub]
    either returns the stub of one of the pooled addresses, over a channel
    to that address on the client's port (the blocking one secure exactly
    when a pem was given), leaving the pool's entries as they were, or
    raises [EmptyPool] on an empty pool without changing anything. *)
Theorem get_round_robin_stub_targets_pool self b s :
  pool_consistent self (_pool s) ->
  match get_round_robin_stub b s with
  | (Ok st, s') => exists a, In a (RR.keys (_pool s)) /\ st = stub_for self b a /\
                             RR.entries (_pool s') = RR.entries (_pool s)
  | (Exc e, s') => e = EmptyPool /\ s' = s /\ RR.entries (_pool s) = []
  end.
Proof.
  intros Hc. unfold get_round_robin_stub, bind, pool_next.
  destruct (RR.next (_pool s)) as [[[a c] p]|] eqn:E.
  - cbv beta iota. exists a.
    assert (Hin := next_In _ _ _ E). split.
    + unfold RR.keys. apply in_map_iff. exists (a, c). split; [reflexivity|exact Hin].
    + rewrite (Hc a c Hin). split; [destruct b; reflexivity|].
      simpl. exact (next_keeps_entries _ _ _ E).
  - cbv beta iota. split; [reflexivity|]. split; [reflexivity|].
    apply next_None_empty. exact E.
Qed.

Lemma get_round_robin_stub_targets_pool_witness :
  pool_consistent (Scenario.client 3) (_pool (Scenario.state ["10.0.0.1"; "10.0.0.2"] 1)) /\
  match get_round_robin_stub true (Scenario.state ["10.0.0.1"; "10.0.0.2"] 1) with
  | (Ok st, s') =>
      exists a, In a (RR.keys (_pool (Scenario.state ["10.0.0.1"; "10.0.0.2"] 1))) /\
                st = stub_for (Scenario.client 3) true a /\
                RR.entries (_pool s') = RR.entries (_pool (Scenario.state ["10.0.0.1"; "10.0.0.2"] 1))
  | (Exc e, s') => e = EmptyPool /\ s' = Scenario.state ["10.0.0.1"; "10.0.0.2"] 1 /\
                   RR.entries (_pool (Scenario.state ["10.0.0.1"; "10.0.0.2"] 1)) = []
  end.
Proof.
  assert (H : pool_consistent (Scenario.client 3) (_pool (Scenario.state ["10.0.0.1"; "10.0.0.2"] 1))).
  { intros a c Hin. simpl in Hin.
    destruct Hin as [E|[E|[]]]; inversion E; reflexivity. }
  split; [exact H|].
  exact (get_round_robin_stub_targets_pool (Scenario.client 3) true _ H).
Defined.

(** X7: [list_models] takes a round-robin turn: it picks the connection
    that [get_round_robin_stub] would pick, sends ListModels over that
    connection's blocking channel, and leaves the pool (entries and
    cursor) exactly as [get_round_robin_stub] would, so the next
    prediction goes to the following address; on an empty pool both raise
    [EmptyPool] and change nothing. *)
Theorem list_models_takes_a_turn env b s :
  _pool (snd (list_models env s)) = _pool (snd (get_round_robin_stub b s)) /\
  ((exists conn,
      fst (get_round_robin_stub b s) = Ok (if b then async_stub conn else sync_stub conn) /\
      list_models env s =
        (env_list_models env (rpc_calls s) (sync_channel conn),
         emit (EvListModels (sync_channel conn)) (tick_rpc (snd (get_round_robin_stub b s))))) \/
   (get_round_robin_stub b s = (Exc EmptyPool, s) /\ list_models env s = (Exc EmptyPool, s))).
Proof.
  unfold list_models, get_round_robin_stub, bind, pool_next.
  destruct (RR.next (_pool s)) as [[[a c] p]|] eqn:E; cbv beta iota.
  - split; [reflexivity|]. left. exists c. split; reflexivity.
  - split; [reflexivity|]. right. split; reflexivity.
Qed.

(* ------------------------------------------------------------------ *)
(** ** Call counts *)

Section Counts.

Variable env : Env.
Variable self : Client.

Lemma setup_counters s :
  rpc_calls (snd (_setup_connections env self s)) = rpc_calls s /\
  resolve_calls (snd (_setup_connections env self s)) = Datatypes.S (resolve_calls s).
Proof.
  set (P := fun s' => rpc_calls s' = rpc_calls s /\
                      resolve_calls s' = Datatypes.S (resolve_calls s)).
  change (P (snd (_setup_connections env self s))).
  unfold _setup_connections, bind at 1, gethostbyname_ex at 1.
  destruct (env_gethostbyname_ex env (resolve_calls s) (host self)) as [current|e];
    [|split; reflexivity].
  cbv beta.
  assert (HP : P (emit (EvResolve (host self)) (tick_resolve s))) by (split; reflexivity).
  revert HP. generalize (emit (EvResolve (host self)) (tick_resolve s)) as s1.
  apply inv_bind; [intros s' H; exact H|intros ks]. cbv zeta.
  destruct (set_eqb _ _); [intros s' H; exact H|].
  apply inv_bind; [apply inv_for; intros x s' H; exact H|intros _].
  - apply inv_for. intros a s' H.
    unfold bind, Connection_new, modify, ret, pool_setitem.
    simpl. destruct (RR.setitem a (mk_connection a (port self) (pem self)) (_pool s'));
      exact H.
Qed.

Lemma attempt_counters b req s :
  rpc_calls (snd (try_ (stub <- get_round_robin_stub b ;; call_predict env stub req) s))
    <= Datatypes.S (rpc_calls s) /\
  resolve_calls (snd (try_ (stub <- get_round_robin_stub b ;; call_predict env stub req) s))
    = resolve_calls s.
Proof.
  unfold try_, get_round_robin_stub, pool_next, bind.
  destruct (RR.next (_pool s)) as [[[a c] p]|]; cbv beta iota; simpl; lia.
Qed.

Lemma retry_loop_counters b cl req :
  forall tries errors s,
  rpc_calls (snd (retry_loop env self b cl req tries errors s)) <= rpc_calls s + tries /\
  resolve_calls (snd (retry_loop env self b cl req tries errors s)) <= resolve_calls s + tries.
Proof.
  induction tries as [|t IH]; intros errors s; [simpl; lia|].
  enough (H : forall p, p = retry_loop env self b cl req (Datatypes.S t) errors s ->
                rpc_calls (snd p) <= rpc_calls s + Datatypes.S t /\
                resolve_calls (snd p) <= resolve_calls s + Datatypes.S t)
    by (apply H; reflexivity).
  intros p Hp. cbn [retry_loop] in Hp.
  pose proof (attempt_counters b req s) as [A1 A2].
  unfold bind at 1 in Hp.
  destruct (try_ (stub <- get_round_robin_stub b ;; call_predict env stub req) s)
    as [[r|e0] s1] eqn:E; simpl in A1, A2; [|subst p; simpl; lia].
  destruct r as [resp|e]; [subst p; simpl; lia|].
  destruct (cl e) as [e'| |]; [subst p; simpl; lia| |].
  - pose proof (setup_counters (emit (EvWarning "serving_utils.Client -- empty pool") s1))
      as [B1 B2].
    unfold log_warning, modify, bind in Hp.
    destruct (_setup_connections env self (emit (EvWarning "serving_utils.Client -- empty pool") s1))
      as [[u|e1] s3]; subst p; simpl in B1, B2 |- *; [|lia].
    destruct (IH (errors ++ [e])%list s3). lia.
  - pose proof (setup_counters (emit (EvException e) s1)) as [B1 B2].
    unfold log_exception, modify, bind in Hp.
    destruct (_setup_connections env self (emit (EvException e) s1))
      as [[u|e1] s3]; subst p; simpl in B1, B2 |- *; [|lia].
    destruct (IH (errors ++ [e])%list s3). lia.
Qed.

End Counts.

(** X8: whatever the resolver and the backends answer, one call of
    [predict] or [async_predict] sends at most [n_trys] Predict RPCs and
    calls the resolver at most [n_trys + 1] times (once up front and once
    after each failed attempt). *)
Theorem predict_bounded_calls env self (is_async : bool) data output_names model_name sig s :
  rpc_calls (snd ((if is_async then async_predict else predict)
                    env self data output_names model_name sig s))
    <= rpc_calls s + Z.to_nat (n_trys self) /\
  resolve_calls (snd ((if is_async then async_predict else predict)
                        env self data output_names model_name sig s))
    <= resolve_calls s + Datatypes.S (Z.to_nat (n_trys self)).
Proof.
  destruct (setup_counters env self s) as [A1 A2].
  enough (H : forall cl p,
    p = (_setup_connections env self ;;
         let request := _predict_request data model_name output_names sig in
         response <- retry_loop env self is_async cl request (Z.to_nat (n_trys self)) [] ;;
         ret (parse_predict_response response)) s ->
    rpc_calls (snd p) <= rpc_calls s + Z.to_nat (n_trys self) /\
    resolve_calls (snd p) <= resolve_calls s + Datatypes.S (Z.to_nat (n_trys self)))
    by (destruct is_async; [apply (H classify_async)|apply (H classify_sync)]; reflexivity).
  intros cl p Hp. unfold bind at 1 in Hp.
  destruct (_setup_connections env self s) as [[u|e] s1];
    simpl in A1, A2; [|subst p; simpl; lia].
  cbv zeta in Hp. unfold bind in Hp.
  destruct (retry_loop_counters env self is_async cl
              (_predict_request data model_name output_names sig) (Z.to_nat (n_trys self)) [] s1)
    as [B1 B2].
  destruct (retry_loop env self is_async cl _ _ _ s1) as [[r|e] s2];
    subst p; simpl in *; lia.
Qed.

(* ------------------------------------------------------------------ *)
(** ** More runs of the retry loop *)

Section MoreLoopRuns.

Variable env : Env.
Variable self : Client.

Lemma loop_step_ok b cl req k errors s r s1 :
  try_ (stub <- get_round_robin_stub b ;; call_predict env stub req) s = (Ok (Ok r), s1) ->
  retry_loop env self b cl req (Datatypes.S k) errors s = (Ok r, s1).
Proof. intros H. cbn [retry_loop]. rewrite (bind_ok _ _ _ _ _ H). reflexivity. Qed.

Lemma loop_step_log_exc b cl req k errors s e s1 e_r :
  try_ (stub <- get_round_robin_stub b ;; call_predict env stub req) s = (Ok (Exc e), s1) ->
  cl e = RetryLog ->
  env_gethostbyname_ex env (resolve_calls s1) (host self) = Exc e_r ->
  retry_loop env self b cl req (Datatypes.S k) errors s =
  (Exc e_r, emit (EvResolve (host self)) (tick_resolve (emit (EvException e) s1))).
Proof.
  intros H Hc Hr. cbn [retry_loop]. rewrite (bind_ok _ _ _ _ _ H). cbv beta iota.
  rewrite Hc. unfold log_exception, modify at 1. unfold bind at 1.
  unfold bind at 1. rewrite (setup_exc env self (emit (EvException e) s1) e_r Hr). reflexivity.
Qed.

(** Over a stable non-empty membership, [j] retryable failures followed
    by a success: the loop returns that response. *)
Lemma retry_loop_success_after b cl req Sa (fail : nat -> Exn) r :
  Sa <> [] ->
  (forall k, env_gethostbyname_ex env k (host self) = Ok Sa) ->
  (forall k, cl (fail k) = RetryLog) ->
  forall j tries errors s,
  j < tries ->
  (forall x, In x (RR.keys (_pool s)) <-> In x Sa) ->
  (forall k st rq, rpc_calls s <= k < rpc_calls s + j -> env_predict env k st rq = Exc (fail k)) ->
  (forall st rq, env_predict env (rpc_calls s + j) st rq = Ok r) ->
  exists s', retry_loop env self b cl req tries errors s = (Ok r, s') /\
             rpc_calls s' = rpc_calls s + Datatypes.S j /\
             resolve_calls s' = resolve_calls s + j.
Proof.
  intros HSa Hres Hcl.
  induction j as [|j IH]; intros tries errors s Hj Hk Hfail Hlast;
    (destruct tries as [|t]; [lia|]);
    destruct (next_nonempty (_pool s)) as (e & p' & Hn);
    try (apply (keys_nonempty _ Sa HSa Hk)).
  - assert (Ha := attempt_call env b req s e p' Hn).
    rewrite <- (Nat.add_0_r (rpc_calls s)) in Ha. rewrite Hlast in Ha.
    eexists. split; [exact (loop_step_ok b cl req t errors s _ _ Ha)|].
    simpl. split; lia.
  - set (st := if b then async_stub (snd e) else sync_stub (snd e)).
    assert (Ha := attempt_call env b req s e p' Hn).
    rewrite (Hfail (rpc_calls s)) in Ha by lia.
    set (s1 := emit (EvException (fail (rpc_calls s)))
                 (emit (EvPredict st) (tick_rpc (set_pool p' s)))).
    destruct (setup_run env self s1 Sa (Hres _))
      as (s2 & Hrun & Hres2 & Hrpc2 & _ & Hfast & _).
    assert (Hk1 : forall x, In x (RR.keys (_pool s1)) <-> In x Sa).
    { intros x. unfold s1, RR.keys. simpl. rewrite (next_keeps_entries _ _ _ Hn). apply Hk. }
    destruct (Hfast Hk1) as [Hp2 _].
    rewrite (loop_step_log env self b cl req t errors s _ _ s2 Ha (Hcl _) Hrun).
    destruct (IH t (errors ++ [fail (rpc_calls s)])%list s2) as (s' & Hl & Hr1 & Hr2);
      [lia| | | |].
    + rewrite Hp2. exact Hk1.
    + intros k st' rq Hr. apply Hfail. rewrite Hrpc2 in Hr. simpl in Hr. lia.
    + intros st' rq. rewrite Hrpc2. simpl.
      replace (Datatypes.S (rpc_calls s + j)) with (rpc_calls s + Datatypes.S j) by lia.
      apply Hlast.
    + exists s'. split; [exact Hl|]. rewrite Hrpc2 in Hr1. rewrite Hres2 in Hr2.
      simpl in Hr1, Hr2. split; lia.
Qed.

End MoreLoopRuns.

Lemma classify_base_exception (is_async : bool) be :
  is_Exception be = false ->
  (if is_async then classify_async else classify_sync) be = Propagate be.
Proof. destruct be; try discriminate; destruct is_async; reflexivity. Qed.

(** X9: a transient outage within the budget is invisible to the caller:
    over a stable non-empty membership, when the first [j] attempts fail
    with errors the surface retries and attempt [j + 1] succeeds, with
    [j < n_trys], [predict] and [async_predict] return the parsed response
    of that attempt, after exactly [j + 1] RPCs and [j + 1] resolver calls
    (one up front and one after each failure). *)
Theorem predict_recovers_within_budget env self s Sa (is_async : bool) j (fail : nat -> Exn) r
    data output_names model_name sig :
  RR.wf (_pool s) -> Sa <> [] ->
  (forall k, env_gethostbyname_ex env k (host self) = Ok Sa) ->
  j < Z.to_nat (n_trys self) ->
  (forall k, (if is_async then classify_async else classify_sync) (fail k) = RetryLog) ->
  (forall k st rq, rpc_calls s <= k < rpc_calls s + j -> env_predict env k st rq = Exc (fail k)) ->
  (forall st rq, env_predict env (rpc_calls s + j) st rq = Ok r) ->
  exists s',
    (if is_async then async_predict else predict) env self data output_names model_name sig s =
      (Ok (parse_predict_response r), s') /\
    rpc_calls s' = rpc_calls s + Datatypes.S j /\
    resolve_calls s' = resolve_calls s + Datatypes.S j.
Proof.
  intros Hwf HSa Hres Hj Hcl Hfail Hlast.
  destruct (setup_run env self s Sa (Hres _)) as (s1 & Hrun & Hres1 & Hrpc1 & _ & _ & Hwf1).
  destruct (Hwf1 Hwf) as [_ Hk].
  rewrite <- Hrpc1 in Hfail, Hlast.
  destruct (retry_loop_success_after env self is_async
              (if is_async then classify_async else classify_sync)
              (_predict_request data model_name output_names sig) Sa fail r
              HSa Hres Hcl j (Z.to_nat (n_trys self)) [] s1 Hj Hk Hfail Hlast)
    as (s' & Hl & Hr1 & Hr2).
  exists s'. split.
  - destruct is_async; unfold predict, async_predict;
      rewrite (bind_ok _ _ _ _ _ Hrun); cbv beta zeta; rewrite (bind_ok _ _ _ _ _ Hl); reflexivity.
  - rewrite Hr1, Hr2, Hrpc1, Hres1. split; lia.
Qed.

Lemma predict_recovers_within_budget_witness :
  RR.wf (_pool (Scenario.state ["10.0.0.1"] 0)) /\
  ["10.0.0.1"; "10.0.0.2"] <> [] /\
  (forall k, env_gethostbyname_ex
               (Scenario.env ["10.0.0.1"; "10.0.0.2"]
                  (fun k => if Nat.ltb k 2 then Exc (Scenario.unavailable k) else Scenario.ok_response))
               k (host (Scenario.client 3)) = Ok ["10.0.0.1"; "10.0.0.2"]) /\
  2 < Z.to_nat (n_trys (Scenario.client 3)) /\
  (forall k, classify_sync (Scenario.unavailable k) = RetryLog) /\
  (forall k st rq, 0 <= k < 0 + 2 ->
     env_predict (Scenario.env ["10.0.0.1"; "10.0.0.2"]
                    (fun k => if Nat.ltb k 2 then Exc (Scenario.unavailable k) else Scenario.ok_response))
       k st rq = Exc (Scenario.unavailable k)) /\
  (forall st rq,
     env_predict (Scenario.env ["10.0.0.1"; "10.0.0.2"]
                    (fun k => if Nat.ltb k 2 then Exc (Scenario.unavailable k) else Scenario.ok_response))
       (0 + 2) st rq = Ok {| outputs := [("c", [5%Z])] |}) /\
  exists s',
    predict (Scenario.env ["10.0.0.1"; "10.0.0.2"]
               (fun k => if Nat.ltb k 2 then Exc (Scenario.unavailable k) else Scenario.ok_response))
      (Scenario.client 3) [] None "default" None (Scenario.state ["10.0.0.1"] 0) =
      (Ok (parse_predict_response {| outputs := [("c", [5%Z])] |}), s') /\
    rpc_calls s' = 0 + 3 /\ resolve_calls s' = 0 + 3.
Proof.
  assert (H1 : RR.wf (_pool (Scenario.state ["10.0.0.1"] 0))).
  { unfold RR.wf, RR.keys. simpl. repeat constructor; simpl; tauto. }
  assert (H2 : ["10.0.0.1"; "10.0.0.2"] <> []) by discriminate.
  assert (H3 : forall k, env_gethostbyname_ex
               (Scenario.env ["10.0.0.1"; "10.0.0.2"]
                  (fun k => if Nat.ltb k 2 then Exc (Scenario.unavailable k) else Scenario.ok_response))
               k (host (Scenario.client 3)) = Ok ["10.0.0.1"; "10.0.0.2"]) by reflexivity.
  assert (H4 : 2 < Z.to_nat (n_trys (Scenario.client 3))) by (simpl; lia).
  assert (H5 : forall k, classify_sync (Scenario.unavailable k) = RetryLog) by reflexivity.
  assert (H6 : forall k st rq, 0 <= k < 0 + 2 ->
     env_predict (Scenario.env ["10.0.0.1"; "10.0.0.2"]
                    (fun k => if Nat.ltb k 2 then Exc (Scenario.unavailable k) else Scenario.ok_response))
       k st rq = Exc (Scenario.unavailable k)).
  { intros k st rq Hk. simpl. destruct (Nat.ltb_spec k 2); [reflexivity|lia]. }
  assert (H7 : forall st rq,
     env_predict (Scenario.env ["10.0.0.1"; "10.0.0.2"]
                    (fun k => if Nat.ltb k 2 then Exc (Scenario.unavailable k) else Scenario.ok_response))
       (0 + 2) st rq = Ok {| outputs := [("c", [5%Z])] |}) by reflexivity.
  do 7 (split; [assumption|]).
  exact (predict_recovers_within_budget _ (Scenario.client 3) (Scenario.state ["10.0.0.1"] 0)
           _ false 2 Scenario.unavailable _ [] None "default" None H1 H2 H3 H4 H5 H6 H7).
Defined.

(** X10: with a budget [n_trys <= 0] ([range(n_trys)] is empty), [predict]
    and [async_predict] reconcile the pool (one resolver call; on a pool
    with unique keys, the keys become exactly the resolved addresses) and
    then raise [RetryFailed] with an empty error list, without sending any
    RPC and without logging anything else. *)
Theorem nonpositive_budget_never_calls env self s Sa (is_async : bool)
    data output_names model_name sig :
  (n_trys self <= 0)%Z ->
  RR.wf (_pool s) ->
  env_gethostbyname_ex env (resolve_calls s) (host self) = Ok Sa ->
  exists s',
    (if is_async then async_predict else predict) env self data output_names model_name sig s =
      (Exc (RetryFailed []), s') /\
    rpc_calls s' = rpc_calls s /\
    resolve_calls s' = Datatypes.S (resolve_calls s) /\
    RR.wf (_pool s') /\ (forall x, In x (RR.keys (_pool s')) <-> In x Sa) /\
    trace s' = (trace s ++ [EvResolve (host self)])%list.
Proof.
  intros Hn Hwf HS.
  destruct (setup_run env self s Sa HS) as (s1 & Hrun & Hres1 & Hrpc1 & _ & _ & Hwf1).
  destruct (Hwf1 Hwf) as [Hw Hk].
  assert (Ht1 := setup_trace env self s). rewrite Hrun in Ht1. simpl in Ht1.
  assert (Hz : Z.to_nat (n_trys self) = 0) by lia.
  exists s1. split; [|split; [exact Hrpc1|split; [exact Hres1|split; [exact Hw|split; [exact Hk|exact Ht1]]]]].
  destruct is_async; unfold predict, async_predict;
    rewrite (bind_ok _ _ _ _ _ Hrun); cbv beta zeta; rewrite Hz; reflexivity.
Qed.

Lemma nonpositive_budget_never_calls_witness :
  (n_trys (Scenario.client 0) <= 0)%Z /\
  RR.wf (_pool (Scenario.state ["10.0.0.1"] 0)) /\
  env_gethostbyname_ex (Scenario.env ["10.0.0.2"] (fun _ => Scenario.ok_response))
    (resolve_calls (Scenario.state ["10.0.0.1"] 0)) (host (Scenario.client 0)) = Ok ["10.0.0.2"] /\
  exists s',
    async_predict (Scenario.env ["10.0.0.2"] (fun _ => Scenario.ok_response)) (Scenario.client 0)
      [] None "default" None (Scenario.state ["10.0.0.1"] 0) = (Exc (RetryFailed []), s') /\
    rpc_calls s' = rpc_calls (Scenario.state ["10.0.0.1"] 0) /\
    resolve_calls s' = Datatypes.S (resolve_calls (Scenario.state ["10.0.0.1"] 0)) /\
    RR.wf (_pool s') /\ (forall x, In x (RR.keys (_pool s')) <-> In x ["10.0.0.2"]) /\
    trace s' = (trace (Scenario.state ["10.0.0.1"] 0) ++ [EvResolve (host (Scenario.client 0))])%list.
Proof.
  assert (H1 : (n_trys (Scenario.client 0) <= 0)%Z) by (simpl; lia).
  assert (H2 : RR.wf (_pool (Scenario.state ["10.0.0.1"] 0))).
  { unfold RR.wf, RR.keys. simpl. repeat constructor; simpl; tauto. }
  split; [exact H1|]. split; [exact H2|]. split; [reflexivity|].
  exact (nonpositive_budget_never_calls (Scenario.env ["10.0.0.2"] (fun _ => Scenario.ok_response))
           (Scenario.client 0) (Scenario.state ["10.0.0.1"] 0) ["10.0.0.2"] true [] None "default" None
           H1 H2 eq_refl).
Defined.

(** X11: a resolver failure while recovering from a failed attempt escapes
    the retry loop: when the first RPC fails with an error the surface
    retries and the re-resolution in its [except] clause raises [e_r],
    [predict] and [async_predict] raise [e_r] itself after that one RPC,
    not [RetryFailed], and the recorded error is dropped. *)
Theorem resolver_failure_during_retry_escapes env self s Sa (is_async : bool) fail1 e_r
    data output_names model_name sig :
  RR.wf (_pool s) -> Sa <> [] ->
  env_gethostbyname_ex env (resolve_calls s) (host self) = Ok Sa ->
  env_gethostbyname_ex env (Datatypes.S (resolve_calls s)) (host self) = Exc e_r ->
  (1 <= n_trys self)%Z ->
  (if is_async then classify_async else classify_sync) fail1 = RetryLog ->
  (forall st rq, env_predict env (rpc_calls s) st rq = Exc fail1) ->
  exists s',
    (if is_async then async_predict else predict) env self data output_names model_name sig s =
      (Exc e_r, s') /\
    rpc_calls s' = Datatypes.S (rpc_calls s).
Proof.
  intros Hwf HSa HS1 HS2 Hn Hcl Hfail.
  destruct (setup_run env self s Sa HS1) as (s1 & Hrun & Hres1 & Hrpc1 & _ & _ & Hwf1).
  destruct (Hwf1 Hwf) as [_ Hk].
  destruct (next_nonempty (_pool s1)) as (e & p' & Hnx); [exact (keys_nonempty _ Sa HSa Hk)|].
  set (cl := if is_async then classify_async else classify_sync).
  set (req := _predict_request data model_name output_names sig).
  assert (Ha := attempt_call env is_async req s1 e p' Hnx).
  rewrite Hrpc1, Hfail in Ha.
  destruct (Z.to_nat (n_trys self)) as [|t] eqn:Ht; [lia|].
  set (s2 := emit (EvPredict (if is_async then async_stub (snd e) else sync_stub (snd e)))
               (tick_rpc (set_pool p' s1))).
  fold s2 in Ha.
  assert (Hl := loop_step_log_exc env self is_async cl req t [] s1 fail1 s2 e_r Ha Hcl).
  rewrite <- Hres1 in HS2.
  specialize (Hl HS2).
  exists (emit (EvResolve (host self)) (tick_resolve (emit (EvException fail1) s2))).
  split.
  - destruct is_async; unfold predict, async_predict;
      rewrite (bind_ok _ _ _ _ _ Hrun); cbv beta zeta; rewrite Ht;
      rewrite (bind_exc _ _ _ _ _ Hl); reflexivity.
  - simpl. rewrite Hrpc1. reflexivity.
Qed.

Lemma resolver_failure_during_retry_escapes_witness :
  RR.wf (_pool (Scenario.state ["10.0.0.1"] 0)) /\ ["10.0.0.1"] <> [] /\
  env_gethostbyname_ex (Scenario.flaky_env ["10.0.0.1"] (fun k => Exc (Scenario.unavailable k)))
    (resolve_calls (Scenario.state ["10.0.0.1"] 0)) (host (Scenario.client 3)) = Ok ["10.0.0.1"] /\
  env_gethostbyname_ex (Scenario.flaky_env ["10.0.0.1"] (fun k => Exc (Scenario.unavailable k)))
    (Datatypes.S (resolve_calls (Scenario.state ["10.0.0.1"] 0))) (host (Scenario.client 3)) =
    Exc (Gaierror "serving.local") /\
  exists s',
    predict (Scenario.flaky_env ["10.0.0.1"] (fun k => Exc (Scenario.unavailable k)))
      (Scenario.client 3) [] None "default" None (Scenario.state ["10.0.0.1"] 0) =
      (Exc (Gaierror "serving.local"), s') /\
    rpc_calls s' = Datatypes.S (rpc_calls (Scenario.state ["10.0.0.1"] 0)).
Proof.
  assert (H1 : RR.wf (_pool (Scenario.state ["10.0.0.1"] 0))).
  { unfold RR.wf, RR.keys. simpl. repeat constructor; simpl; tauto. }
  assert (H2 : ["10.0.0.1"] <> []) by discriminate.
  assert (H5 : (1 <= n_trys (Scenario.client 3))%Z) by (simpl; lia).
  assert (H6 : classify_sync (Scenario.unavailable 0) = RetryLog) by reflexivity.
  split; [exact H1|]. split; [exact H2|]. split; [reflexivity|]. split; [reflexivity|].
  exact (resolver_failure_during_retry_escapes
           (Scenario.flaky_env ["10.0.0.1"] (fun k => Exc (Scenario.unavailable k)))
           (Scenario.client 3) (Scenario.state ["10.0.0.1"] 0) ["10.0.0.1"] false
           (Scenario.unavailable 0) (Gaierror "serving.local") [] None "default" None
           H1 H2 eq_refl eq_refl H5 H6 (fun _ _ => eq_refl)).
Defined.

(** X12: an exception that is not an [Exception] subclass (KeyboardInterrupt,
    SystemExit, and asyncio.CancelledError on the blocking surface too)
    matches no [except] clause of either loop: it leaves [predict] and
    [async_predict] at the attempt that raised it, after that one RPC,
    unlogged, unrecorded and without reconciliation. *)
Theorem base_exceptions_escape_both_loops env self (is_async : bool) req tries errors s e p' be :
  is_Exception be = false ->
  RR.next (_pool s) = Some (e, p') ->
  env_predict env (rpc_calls s) (if is_async then async_stub (snd e) else sync_stub (snd e)) req =
    Exc be ->
  retry_loop env self is_async (if is_async then classify_async else classify_sync) req
    (Datatypes.S tries) errors s =
  (Exc be, emit (EvPredict (if is_async then async_stub (snd e) else sync_stub (snd e)))
             (tick_rpc (set_pool p' s))).
Proof.
  intros Hb Hn Hr. assert (Ha := attempt_call env is_async req s e p' Hn).
  rewrite Hr in Ha.
  apply (loop_step_propagate env self is_async _ req tries errors s _ _ _ Ha).
  apply classify_base_exception. exact Hb.
Qed.

Lemma base_exceptions_escape_both_loops_witness :
  is_Exception (OtherBaseException "KeyboardInterrupt") = false /\
  RR.next (_pool (Scenario.state ["10.0.0.1"] 0)) =
    Some (("10.0.0.1", mk_connection "10.0.0.1" 8500 None),
          {| RR.entries := [("10.0.0.1", mk_connection "10.0.0.1" 8500 None)]; RR.idx := 0 |}) /\
  env_predict (Scenario.env ["10.0.0.1"] (fun _ => Exc (OtherBaseException "KeyboardInterrupt"))) 0
    (sync_stub (mk_connection "10.0.0.1" 8500 None)) Scenario.request =
    Exc (OtherBaseException "KeyboardInterrupt") /\
  retry_loop (Scenario.env ["10.0.0.1"] (fun _ => Exc (OtherBaseException "KeyboardInterrupt")))
    (Scenario.client 3) false classify_sync Scenario.request 3 [] (Scenario.state ["10.0.0.1"] 0) =
  (Exc (OtherBaseException "KeyboardInterrupt"),
   emit (EvPredict (sync_stub (mk_connection "10.0.0.1" 8500 None)))
     (tick_rpc (set_pool {| RR.entries := [("10.0.0.1", mk_connection "10.0.0.1" 8500 None)];
                            RR.idx := 0 |} (Scenario.state ["10.0.0.1"] 0)))).
Proof.
  assert (H1 : RR.next (_pool (Scenario.state ["10.0.0.1"] 0)) =
    Some (("10.0.0.1", mk_connection "10.0.0.1" 8500 None),
          {| RR.entries := [("10.0.0.1", mk_connection "10.0.0.1" 8500 None)]; RR.idx := 0 |}))
    by reflexivity.
  split; [reflexivity|]. split; [exact H1|]. split; [reflexivity|].
  exact (base_exceptions_escape_both_loops
           (Scenario.env ["10.0.0.1"] (fun _ => Exc (OtherBaseException "KeyboardInterrupt")))
           (Scenario.client 3) false Scenario.request 2 [] _ _ _
           (OtherBaseException "KeyboardInterrupt") eq_refl H1 eq_refl).
Defined.

(** X13: after an attempt whose RPC fails with an error the surface
    retries, the loop goes on with that error recorded, over a pool
    rebuilt from a fresh resolution: its keys are exactly the addresses
    the resolver now returns, still without duplicates, so the next attempt
    already goes to the new membership. *)
Theorem retry_continues_on_resolved_pool env self (is_async : bool) req k errors s en p' fail1 Sa :
  RR.wf (_pool s) ->
  RR.next (_pool s) = Some (en, p') ->
  env_predict env (rpc_calls s) (if is_async then async_stub (snd en) else sync_stub (snd en)) req =
    Exc fail1 ->
  (if is_async then classify_async else classify_sync) fail1 = RetryLog ->
  env_gethostbyname_ex env (resolve_calls s) (host self) = Ok Sa ->
  exists s2,
    retry_loop env self is_async (if is_async then classify_async else classify_sync) req
      (Datatypes.S k) errors s =
    retry_loop env self is_async (if is_async then classify_async else classify_sync) req
      k (errors ++ [fail1])%list s2 /\
    RR.wf (_pool s2) /\ (forall x, In x (RR.keys (_pool s2)) <-> In x Sa) /\
    rpc_calls s2 = Datatypes.S (rpc_calls s) /\ resolve_calls s2 = Datatypes.S (resolve_calls s).
Proof.
  intros Hwf Hn Hr Hcl HS.
  assert (Ha := attempt_call env is_async req s en p' Hn). rewrite Hr in Ha.
  set (s1 := emit (EvException fail1)
               (emit (EvPredict (if is_async then async_stub (snd en) else sync_stub (snd en)))
                  (tick_rpc (set_pool p' s)))).
  destruct (setup_run env self s1 Sa HS) as (s2 & Hrun & Hres2 & Hrpc2 & _ & _ & Hwf2).
  assert (Hwf1 : RR.wf (_pool s1)).
  { unfold RR.wf, RR.keys, s1. simpl. rewrite (next_keeps_entries _ _ _ Hn). exact Hwf. }
  destruct (Hwf2 Hwf1) as [Hw Hk].
  exists s2. split; [exact (loop_step_log env self is_async _ req k errors s _ _ s2 Ha Hcl Hrun)|].
  split; [exact Hw|]. split; [exact Hk|]. rewrite Hrpc2, Hres2. split; reflexivity.
Qed.

Lemma retry_continues_on_resolved_pool_witness :
  RR.wf (_pool (Scenario.state ["10.0.0.1"] 0)) /\
  RR.next (_pool (Scenario.state ["10.0.0.1"] 0)) =
    Some (("10.0.0.1", mk_connection "10.0.0.1" 8500 None),
          {| RR.entries := [("10.0.0.1", mk_connection "10.0.0.1" 8500 None)]; RR.idx := 0 |}) /\
  env_predict (Scenario.env ["10.0.0.2"] (fun k => Exc (Scenario.unavailable k))) 0
    (sync_stub (mk_connection "10.0.0.1" 8500 None)) Scenario.request = Exc (Scenario.unavailable 0) /\
  classify_sync (Scenario.unavailable 0) = RetryLog /\
  env_gethostbyname_ex (Scenario.env ["10.0.0.2"] (fun k => Exc (Scenario.unavailable k))) 0
    (host (Scenario.client 3)) = Ok ["10.0.0.2"] /\
  exists s2,
    retry_loop (Scenario.env ["10.0.0.2"] (fun k => Exc (Scenario.unavailable k))) (Scenario.client 3)
      false classify_sync Scenario.request 3 [] (Scenario.state ["10.0.0.1"] 0) =
    retry_loop (Scenario.env ["10.0.0.2"] (fun k => Exc (Scenario.unavailable k))) (Scenario.client 3)
      false classify_sync Scenario.request 2 [Scenario.unavailable 0] s2 /\
    RR.wf (_pool s2) /\ (forall x, In x (RR.keys (_pool s2)) <-> In x ["10.0.0.2"]) /\
    rpc_calls s2 = 1 /\ resolve_calls s2 = 1.
Proof.
  assert (H1 : RR.wf (_pool (Scenario.state ["10.0.0.1"] 0))).
  { unfold RR.wf, RR.keys. simpl. repeat constructor; simpl; tauto. }
  assert (H2 : RR.next (_pool (Scenario.state ["10.0.0.1"] 0)) =
    Some (("10.0.0.1", mk_connection "10.0.0.1" 8500 None),
          {| RR.entries := [("10.0.0.1", mk_connection "10.0.0.1" 8500 None)]; RR.idx := 0 |}))
    by reflexivity.
  assert (H4 : classify_sync (Scenario.unavailable 0) = RetryLog) by reflexivity.
  split; [exact H1|]. split; [exact H2|]. split; [reflexivity|]. split; [exact H4|].
  split; [reflexivity|].
  exact (retry_continues_on_resolved_pool
           (Scenario.env ["10.0.0.2"] (fun k => Exc (Scenario.unavailable k))) (Scenario.client 3) false Scenario.request 2 [] _ _ _
           _ ["10.0.0.2"] H1 H2 eq_refl H4 eq_refl).
Defined.
